(** * build/webpack.js: the base webpack configuration of the framework

    A shallow embedding of [src/build/webpack.js] and the properties of its
    policies: the server externals classification, the optimization
    (chunk splitting) policy, the output file naming, and the entry thunk
    with its closing [main.js] rewrite.

    Conventions of the embedding.
    - A JavaScript string is a [string]: one character per code unit, code
      units below 256 (paths, chunk names and hashes are of this kind).
    - A JavaScript number that the code computes from a page count is a
      rational [Q]: [totalPages] is the length of a key array, and the only
      arithmetic on it, the product with [0.5], is exact in binary floating
      point.
    - An object used as a mapping from entry names to module arrays is a
      [gmap string (list string)]: a key that is absent reads as
      [undefined].
    - An [async] function, once awaited, either yields a value or raises:
      its result is a [result]. *)

From Stdlib Require Import Ascii String QArith Qround.
From stdpp Require Import gmap strings list fin_maps.

Local Open Scope string_scope.
Local Open Scope list_scope.

(** ** Outcomes of evaluating JavaScript code *)

Inductive exn : Type :=
| TypeError                      (* raised by the language itself *)
| Thrown (payload : string).     (* anything raised by user code *)

Inductive result (A : Type) : Type :=
| Ok (a : A)
| Throw (e : exn).
Arguments Ok {A} a.
Arguments Throw {A} e.

Definition rbind {A B} (r : result A) (k : A -> result B) : result B :=
  match r with
  | Ok a => k a
  | Throw e => Throw e
  end.

Notation "x <~ r ; k" := (rbind r (fun x => k))
  (at level 100, r at next level, right associativity).

(** ** The regular expressions the file uses

    Only four kinds of atoms occur in the regular expressions of
    [webpack.js]: a literal character, a character class such as [[/\\]],
    the greedy [.*] and the end anchor [$].  [match_here] is the
    backtracking matcher at a fixed start position; it returns what is left
    of the subject after the match. *)

Module Regex.

Inductive atom : Type :=
| Chr (c : ascii)
| Cls (cs : list ascii)
| DotStar
| Eos.

Definition lit (s : string) : list atom := Chr <$> list_ascii_of_string s.

(* [.] matches every code unit but a line terminator *)
Definition line_terminator (a : ascii) : bool :=
  Ascii.eqb a "010" || Ascii.eqb a "013".

Fixpoint match_here (p : list atom) : string -> option string :=
  match p with
  | [] => fun s => Some s
  | Chr c :: p' => fun s =>
      match s with
      | String a s' => if Ascii.eqb a c then match_here p' s' else None
      | EmptyString => None
      end
  | Cls cs :: p' => fun s =>
      match s with
      | String a s' =>
          if existsb (Ascii.eqb a) cs then match_here p' s' else None
      | EmptyString => None
      end
  | DotStar :: p' =>
      fix star (s : string) : option string :=
        let longer :=
          match s with
          | String a s' => if line_terminator a then None else star s'
          | EmptyString => None
          end in
        match longer with
        | Some rest => Some rest
        | None => match_here p' s
        end
  | Eos :: p' => fun s =>
      match s with
      | EmptyString => match_here p' s
      | String _ _ => None
      end
  end.

(* The leftmost match: what precedes it, the matched text, what follows. *)
Fixpoint exec (p : list atom) (s : string) : option (string * string * string) :=
  match match_here p s with
  | Some rest =>
      Some ("", substring 0 (String.length s - String.length rest) s, rest)
  | None =>
      match s with
      | String a s' =>
          match exec p s' with
          | Some (pre, m, post) => Some (String a pre, m, post)
          | None => None
          end
      | EmptyString => None
      end
  end.

(* [s.match(re)] used as a condition: truthy exactly when there is a match *)
Definition test (p : list atom) (s : string) : bool :=
  match exec p s with Some _ => true | None => false end.

(* The replacement text of [String.prototype.replace] for a pattern
   without capture groups: [$$], [$&], [$`] and [$'] are special, every
   other character stands for itself. *)
Fixpoint get_substitution (matched pre post repl : string) : string :=
  match repl with
  | EmptyString => EmptyString
  | String a r =>
      match a, r with
      | "$"%char, String "$"%char r' =>
          String "$" (get_substitution matched pre post r')
      | "$"%char, String "&"%char r' =>
          matched +:+ get_substitution matched pre post r'
      | "$"%char, String "`"%char r' =>
          pre +:+ get_substitution matched pre post r'
      | "$"%char, String "'"%char r' =>
          post +:+ get_substitution matched pre post r'
      | _, _ => String a (get_substitution matched pre post r)
      end
  end.

(* a text in which [$] does not occur *)
Fixpoint dollar_free (s : string) : bool :=
  match s with
  | EmptyString => true
  | String a r => negb (Ascii.eqb a "$") && dollar_free r
  end.

(* [s.replace(re, repl)] for a regular expression without the [g] flag *)
Definition replace (p : list atom) (s repl : string) : string :=
  match exec p s with
  | Some (pre, m, post) => pre +:+ get_substitution m pre post repl +:+ post
  | None => s
  end.

End Regex.

(* [/\.js$/] *)
Definition re_js_ext : list Regex.atom :=
  Regex.lit ".js" ++ [Regex.Eos].

Definition sep : Regex.atom := Regex.Cls ["/"%char; "\"%char].

(* [/node_modules[/\\]next[/\\]dist[/\\]pages/] *)
Definition re_default_pages : list Regex.atom :=
  Regex.lit "node_modules" ++ [sep] ++ Regex.lit "next" ++ [sep] ++
  Regex.lit "dist" ++ [sep] ++ Regex.lit "pages".

(* [/node_modules[/\\]webpack/] *)
Definition re_webpack : list Regex.atom :=
  Regex.lit "node_modules" ++ [sep] ++ Regex.lit "webpack".

(* [/node_modules[/\\].*\.js$/] *)
Definition re_node_modules_js : list Regex.atom :=
  Regex.lit "node_modules" ++ [sep; Regex.DotStar] ++ re_js_ext.

(** ** [externalsConfig]

    The module resolver ([resolve] of the package of the same name) is a
    collaborator: it hands its callback either an error or the resolved
    path.  An externals function answers through its callback; the call it
    makes is the value returned here. *)

Record ResolveOpts : Type := {
  basedir : string;
  preserveSymlinks : bool
}.

Inductive resolved : Type :=
| ResolveErr (err : exn)
| Resolved (res : string).

(* [callback(err, result)]; an argument left out or [null] is [None] *)
Record callback_call : Type := Callback {
  cb_err : option exn;
  cb_result : option string
}.

Definition Resolver : Type := string -> ResolveOpts -> resolved.
Definition External : Type := string -> string -> callback_call.

Definition external (resolve : Resolver) (dir : string) : External :=
  fun context request =>
    match resolve request {| basedir := dir; preserveSymlinks := true |} with
    | ResolveErr err => Callback None None
    | Resolved res =>
        (* Default pages have to be transpiled *)
        if Regex.test re_default_pages res then Callback None None
        (* Webpack itself has to be compiled *)
        else if Regex.test re_webpack res then Callback None None
        else if Regex.test re_node_modules_js res
        then Callback None (Some ("commonjs " +:+ request))
        else Callback None None
    end.

Definition externalsConfig (resolve : Resolver) (dir : string) (isServer : bool)
  : list External :=
  if negb isServer then [] else [external resolve dir].

(* what a caller of the callback reads off the call *)
Definition bundled (c : callback_call) : Prop :=
  cb_err c = None /\ cb_result c = None.

(** ** [optimizationConfig] *)

Record CacheGroup : Type := {
  cg_name : string;
  cg_chunks : string;
  minChunks : Q
}.

(* a cache group set to [false] is [None] *)
Record CacheGroups : Type := {
  cg_default : option CacheGroup;
  vendors : option CacheGroup;
  commons : option CacheGroup
}.

Record SplitChunks : Type := {
  chunks : string;
  cacheGroups : CacheGroups
}.

(* [splitChunks: false] is [None]; a key the object does not have is [None] *)
Record Optimization : Type := {
  runtimeChunk : option string;   (* the [name] of the runtime chunk *)
  splitChunks : option SplitChunks;
  minimize : option bool
}.

Definition optimizationConfig (dir : string) (dev isServer : bool)
  (totalPages : nat) : Optimization :=
  if isServer then
    {| runtimeChunk := None; splitChunks := None; minimize := Some false |}
  else
    let config :=
      {| runtimeChunk := Some "static/commons/runtime.js";
         splitChunks := None;
         minimize := None |} in
    if dev then config
    else
      {| runtimeChunk := runtimeChunk config;
         minimize := minimize config;
         splitChunks := Some
           {| chunks := "all";
              cacheGroups :=
                {| cg_default := None;
                   vendors := None;
                   commons := Some
                     {| cg_name := "commons";
                        cg_chunks := "all";
                        minChunks :=
                          if (2 <? totalPages)%nat
                          then (inject_Z (Z.of_nat totalPages) * (1 # 2))%Q
                          else 2%Q |} |} |} |}.

(* the threshold of the commons group, when the result has one *)
Definition commons_threshold (o : Optimization) : option Q :=
  sc ← splitChunks o; cg ← commons (cacheGroups sc); Some (minChunks cg).

(** ** [output.filename] *)

Record Chunk : Type := {
  name : string;
  renderedHash : string
}.

Definition filename (dev : bool) (chunk : Chunk) : string :=
  (* Use `[name]-[chunkhash].js` in production *)
  if negb dev && (String.eqb (name chunk) "static/commons/main.js"
                  || String.eqb (name chunk) "static/commons/runtime.js")
  then Regex.replace re_js_ext (name chunk)
         ("-" +:+ renderedHash chunk +:+ ".js")
  else "[name]".

(** ** Entry mappings and the closing rewrite *)

Abbreviation entries := (gmap string (list string)).

(* [async () => ...]: the outcome of awaiting one call *)
Definition thunk : Type := unit -> result entries.

(* [...v] inside an array literal: [undefined] is not iterable *)
Definition spread_array (v : option (list string)) : result (list string) :=
  match v with
  | Some l => Ok l
  | None => Throw TypeError
  end.

(* Backwards compat for `main.js` entry key *)
Definition closing_entry (originalEntry : thunk) : thunk :=
  fun _ =>
    entry <~ originalEntry tt;
    (* Server compilation doesn't have main.js *)
    match entry !! "main.js" with
    | Some _ =>
        main <~ spread_array (entry !! "main.js");
        rest <~ spread_array (entry !! "static/commons/main.js");
        Ok (delete "main.js"
              (<["static/commons/main.js" := main ++ rest]> entry))
    | None => Ok entry
    end.

(** ** The configuration

    The fields kept are the ones the policies above fill in, together with
    the scalar ones next to them.  Left out: [recordsPath], [output.path],
    [resolve], [resolveLoader], [module], [performance] and [plugins], and
    [defaultLoaders] in the context handed to the hook; none of them is read
    by the code modelled here. *)

Record Output : Type := {
  out_filename : Chunk -> string;
  libraryTarget : string;
  hotUpdateChunkFilename : string;
  hotUpdateMainFilename : string;
  chunkFilename : string;
  strictModuleExceptionHandling : bool
}.

Record Configuration : Type := {
  mode : string;
  devtool : option string;        (* [false] is [None] *)
  cfg_name : string;
  cache : bool;
  target : string;
  externals : list External;
  optimization : Optimization;
  context : string;
  entry : thunk;
  output : Output
}.

Definition set_entry (c : Configuration) (e : thunk) : Configuration :=
  {| mode := mode c; devtool := devtool c; cfg_name := cfg_name c;
     cache := cache c; target := target c; externals := externals c;
     optimization := optimization c; context := context c;
     entry := e; output := output c |}.

(* the plain fields of [NextConfig]; [config.webpack] travels next to it,
   since it is a function over a context that holds the configuration *)
Record NextConfig : Type := {
  distDir : string;
  pageExtensions : list string
}.

Record BaseConfigContext : Type := {
  dev : bool;
  isServer : bool;
  buildId : string;
  config : NextConfig
}.

Record HookContext : Type := {
  hc_dir : string;
  hc_dev : bool;
  hc_isServer : bool;
  hc_buildId : string;
  hc_config : NextConfig;
  hc_totalPages : nat
}.

(* [config.webpack], when [typeof config.webpack === 'function'] *)
Definition Hook : Type := Configuration -> HookContext -> result Configuration.

Record GetPagesOpts : Type := {
  nextPagesDir : string;
  gp_dev : bool;
  gp_isServer : bool;
  gp_pageExtensions : string
}.

Section Assembler.

(** The collaborators and constants that live outside [webpack.js]. *)
Variable resolve : Resolver.
Variable getPages : string -> GetPagesOpts -> result entries.
Variable path_join : list string -> string.
Variable NEXT_PROJECT_ROOT_DIST : string.
Variable DEFAULT_PAGES_DIR : string.

(* [.filter(Boolean)] over strings keeps the non-empty ones *)
Definition truthy (s : string) : bool := negb (String.eqb s "").

Definition clientEntries (dev isServer : bool) : entries :=
  if negb isServer then
    (* Backwards compatibility *)
    <["main.js" := []]>
    (<["static/commons/main.js" :=
         List.filter truthy
           [path_join [NEXT_PROJECT_ROOT_DIST; "client";
                       if dev then "next-dev" else "next"]]]> ∅)
  else ∅.

(* [{...clientEntries, ...pagesEntries}]: the later spread wins *)
Definition base_entry (dev isServer : bool) (pagesEntries : entries) : thunk :=
  fun _ => Ok (pagesEntries ∪ clientEntries dev isServer).

Definition baseConfig (dir : string) (ctx : BaseConfigContext)
  (pagesEntries : entries) : Configuration :=
  let dev := dev ctx in
  let isServer := isServer ctx in
  let totalPages := size pagesEntries in
  {| mode := if dev then "development" else "production";
     devtool := if dev then Some "cheap-module-source-map" else None;
     cfg_name := if isServer then "server" else "client";
     cache := true;
     target := if isServer then "node" else "web";
     externals := externalsConfig resolve dir isServer;
     optimization := optimizationConfig dir dev isServer totalPages;
     context := dir;
     (* Kept as function to be backwards compatible *)
     entry := base_entry dev isServer pagesEntries;
     output :=
       {| out_filename := filename dev;
          libraryTarget := "commonjs2";
          hotUpdateChunkFilename := "static/webpack/[id].[hash].hot-update.js";
          hotUpdateMainFilename := "static/webpack/[hash].hot-update.json";
          chunkFilename :=
            if isServer
            then (if dev then "[name]" else "[chunkhash]") +:+ ".js"
            else "static/chunks/"
                 +:+ (if dev then "[name]" else "[chunkhash]") +:+ ".js";
          strictModuleExceptionHandling := true |} |}.

Definition hookContext (dir : string) (ctx : BaseConfigContext)
  (totalPages : nat) : HookContext :=
  {| hc_dir := dir; hc_dev := dev ctx; hc_isServer := isServer ctx;
     hc_buildId := buildId ctx; hc_config := config ctx;
     hc_totalPages := totalPages |}.

(* the options [getPages] is called with *)
Definition pagesOptions (ctx : BaseConfigContext) : GetPagesOpts :=
  {| nextPagesDir := DEFAULT_PAGES_DIR;
     gp_dev := dev ctx;
     gp_isServer := isServer ctx;
     gp_pageExtensions := String.concat "|" (pageExtensions (config ctx)) |}.

Definition getBaseWebpackConfig (dir : string) (ctx : BaseConfigContext)
  (webpack : option Hook) : result Configuration :=
  pagesEntries <~ getPages dir (pagesOptions ctx);
  let totalPages := size pagesEntries in
  let webpackConfig := baseConfig dir ctx pagesEntries in
  webpackConfig <~
    match webpack with
    | Some hook => hook webpackConfig (hookContext dir ctx totalPages)
    | None => Ok webpackConfig
    end;
  let originalEntry := entry webpackConfig in
  Ok (set_entry webpackConfig (closing_entry originalEntry)).

End Assembler.

(** ** The entry thunk over a store

    Objects and arrays are references in JavaScript: [{...o}] copies the
    keys of [o] into a new object but shares the arrays they point to, and
    [entry[k] = v] and [delete entry[k]] update an object in place.  This
    second embedding of the two thunks makes the store explicit, so that
    what an invocation allocates and what it overwrites can be told apart.
    References are typed as in the Flow source: an object reference points
    into [objs], an array reference into [arrs].  A running program only
    holds references it was given by an allocation; for the others the
    operations are completed as follows: an object outside the store has no
    keys, and spreading an array outside the store raises as the spread of
    any value that is not iterable does.  The statements are about
    [allocated] references. *)

Module Store.

Abbreviation oref := positive.
Abbreviation aref := positive.

Record heap : Type := Heap {
  objs : gmap positive (gmap string positive);
  arrs : gmap positive (list string)
}.

Definition M (A : Type) : Type := heap -> result A * heap.

Definition ret {A} (a : A) : M A := fun h => (Ok a, h).

Definition throw {A} (e : exn) : M A := fun h => (Throw e, h).

Definition bind {A B} (c : M A) (k : A -> M B) : M B :=
  fun h =>
    match c h with
    | (Ok a, h') => k a h'
    | (Throw e, h') => (Throw e, h')
    end.

Notation "x <- c ;; k" := (bind c (fun x => k))
  (at level 100, c at next level, right associativity).

(* [{...}] and [[...]] literals allocate *)
Definition alloc_obj (props : gmap string aref) : M oref :=
  fun h =>
    let r := fresh (dom (objs h)) in
    (Ok r, Heap (<[r := props]> (objs h)) (arrs h)).

Definition alloc_arr (elems : list string) : M aref :=
  fun h =>
    let a := fresh (dom (arrs h)) in
    (Ok a, Heap (objs h) (<[a := elems]> (arrs h))).

(* the own keys of an object, as the spread [...o] enumerates them *)
Definition own_props (r : oref) : M (gmap string aref) :=
  fun h => (Ok (default ∅ (objs h !! r)), h).

(* [o[k]]; [None] is [undefined] *)
Definition get_prop (r : oref) (k : string) : M (option aref) :=
  fun h => (Ok (default ∅ (objs h !! r) !! k), h).

(* [...v] inside an array literal; [undefined] is not iterable *)
Definition spread_array (v : option aref) : M (list string) :=
  fun h =>
    match v with
    | None => (Throw TypeError, h)
    | Some a =>
        match arrs h !! a with
        | Some elems => (Ok elems, h)
        | None => (Throw TypeError, h)
        end
    end.

(* [o[k] = a] *)
Definition set_prop (r : oref) (k : string) (a : aref) : M unit :=
  fun h => (Ok tt, Heap (alter (insert k a) r (objs h)) (arrs h)).

(* [delete o[k]] *)
Definition delete_prop (r : oref) (k : string) : M unit :=
  fun h => (Ok tt, Heap (alter (delete k) r (objs h)) (arrs h)).

(* [async () => ({...clientEntries, ...pagesEntries})] *)
Definition base_entry (clientEntries pagesEntries : oref) : M oref :=
  c <- own_props clientEntries;;
  p <- own_props pagesEntries;;
  alloc_obj (p ∪ c).

Definition closing_entry (originalEntry : M oref) : M oref :=
  original <- originalEntry;;
  props <- own_props original;;
  entry <- alloc_obj props;;
  main <- get_prop entry "main.js";;
  match main with
  | Some _ =>
      m <- get_prop entry "main.js";;
      ms <- spread_array m;;
      c <- get_prop entry "static/commons/main.js";;
      cs <- spread_array c;;
      a <- alloc_arr (ms ++ cs);;
      _ <- set_prop entry "static/commons/main.js" a;;
      _ <- delete_prop entry "main.js";;
      ret entry
  | None => ret entry
  end.

(** What one invocation of the rewritten thunk does to the store: one new
    object, at most one new array, and nothing else. *)
Definition closing_run (original : oref) (h1 : heap) : result oref * heap :=
  let props := default ∅ (objs h1 !! original) in
  let entry := fresh (dom (objs h1)) in
  let h2 := Heap (<[entry := props]> (objs h1)) (arrs h1) in
  match props !! "main.js" with
  | None => (Ok entry, h2)
  | Some m =>
      match arrs h1 !! m with
      | None => (Throw TypeError, h2)
      | Some ms =>
          match props !! "static/commons/main.js" ≫= (fun c => arrs h1 !! c) with
          | None => (Throw TypeError, h2)
          | Some cs =>
              let a := fresh (dom (arrs h1)) in
              (Ok entry,
               Heap (<[entry := delete "main.js"
                                  (<["static/commons/main.js" := a]> props)]>
                       (objs h1))
                    (<[a := ms ++ cs]> (arrs h1)))
          end
      end
  end.

(* [webpackConfig.entry] of a configuration assembled without a hook *)
Definition entry_thunk (clientEntries pagesEntries : oref) : M oref :=
  closing_entry (base_entry clientEntries pagesEntries).

(** What a reader of the store sees behind an object reference. *)
Definition view (h : heap) (r : oref) : entries :=
  omap (fun a => arrs h !! a) (default ∅ (objs h !! r)).

Definition observe (x : result oref * heap) : result entries :=
  match x with
  | (Ok r, h') => Ok (view h' r)
  | (Throw e, _) => Throw e
  end.

Definition outcome (c : M oref) (h : heap) : result entries := observe (c h).

(* the store after [n] invocations in a row *)
Fixpoint invoke_n (c : M oref) (n : nat) (h : heap) : heap :=
  match n with
  | O => h
  | S n' => (c (invoke_n c n' h)).2
  end.

Definition heap_le (h h' : heap) : Prop :=
  objs h ⊆ objs h' /\ arrs h ⊆ arrs h'.

(* a computation that leaves what is in the store as it is *)
Definition preserving (c : M oref) : Prop := forall h, heap_le h (c h).2.

(* an object all of whose arrays are in the store *)
Definition allocated (h : heap) (r : oref) : Prop :=
  exists props, objs h !! r = Some props /\
    forall k a, props !! k = Some a -> is_Some (arrs h !! a).

End Store.

(** ** A hook's entry thunk over the store

    The way a project puts a module in front of the client bootstrap: its
    [webpack] hook replaces [entry] by a thunk that calls the original one
    and unshifts the module into the array under [main.js],
    [entries['main.js'].unshift(module)], before it returns the mapping. *)

Module StoreHook.

Import Store.

(* [a.unshift(x)]: the array is updated in place *)
Definition unshift (a : aref) (x : string) : M unit :=
  fun h => (Ok tt, Heap (objs h) (alter (cons x) a (arrs h))).

Definition unshifting_entry (module : string) (originalEntry : M oref) : M oref :=
  entries <- originalEntry;;
  main <- get_prop entries "main.js";;
  match main with
  | Some a => _ <- unshift a module;; ret entries
  | None => ret entries
  end.

(* a thunk that can be wrapped safely from the store [h] on: it only
   allocates, the object it returns is in the store with all its arrays,
   and on every store that extends [h] it yields what it yields on [h] *)
Definition well_behaved (orig : M oref) (h : heap) : Prop :=
  preserving orig /\
  forall h', heap_le h h' ->
    outcome orig h' = outcome orig h /\
    forall r h'', orig h' = (Ok r, h'') -> allocated h'' r.

(* a thunk that can be invoked again and again from the store [h] on:
   every invocation yields what the first one yields, what could be read
   in [h] reads the same afterwards, and so does every mapping returned by
   an earlier invocation *)
Definition reinvocable (thunk : M oref) (h : heap) : Prop :=
  forall n : nat,
    let hn := invoke_n thunk n h in
    outcome thunk hn = outcome thunk h /\
    heap_le h hn /\
    (forall r, allocated h r -> view hn r = view h r) /\
    (forall m r, m < n ->
       (thunk (invoke_n thunk m h)).1 = Ok r ->
       view hn r = view (invoke_n thunk (S m) h) r).

End StoreHook.

(** ** Vocabulary of the statements *)

Definition is_sep (c : ascii) : Prop := c = "/"%char \/ c = "\"%char.

(* the path holds the segment [node_modules/next/dist/pages], with either
   separator *)
Definition has_default_pages_segment (res : string) : Prop :=
  exists pre post c1 c2 c3,
    is_sep c1 /\ is_sep c2 /\ is_sep c3 /\
    res = pre +:+ "node_modules" +:+ String c1 ("next" +:+ String c2
            ("dist" +:+ String c3 ("pages" +:+ post))).

Definition infrastructure_chunk (n : string) : Prop :=
  n = "static/commons/main.js" \/ n = "static/commons/runtime.js".

(* the closing rewrite as the specification words it, with an absent
   [static/commons/main.js] read as the empty sequence *)
Definition rewrite_as_specified (m : entries) (out : result entries) : Prop :=
  match m !! "main.js" with
  | Some main =>
      out = Ok (delete "main.js"
                  (<["static/commons/main.js" :=
                       main ++ default [] (m !! "static/commons/main.js")]> m))
  | None => out = Ok m
  end.

(** ** A sample project, to run the definitions on *)

Definition sample_resolver : Resolver :=
  fun request _ =>
    if String.eqb request "next/dist/pages/_error.js"
    then Resolved "/app/node_modules/next/dist/pages/_error.js"
    else if String.eqb request "lodash"
    then Resolved "/app/node_modules/lodash/lodash.js"
    else ResolveErr (Thrown "Cannot find module").

Definition sample_getPages : string -> GetPagesOpts -> result entries :=
  fun dir _ =>
    Ok (<["bundles/pages/index.js" := [dir +:+ "/pages/index.js"]]>
        {["bundles/pages/_error.js" := [dir +:+ "/pages/_error.js"]]}).

Definition sample_context (dev isServer : bool) : BaseConfigContext :=
  {| dev := dev; isServer := isServer; buildId := "build-1";
     config := {| distDir := ".next"; pageExtensions := ["jsx"; "js"] |} |}.

Definition sample_build (dev isServer : bool) (webpack : option Hook)
  : result Configuration :=
  getBaseWebpackConfig sample_resolver sample_getPages (String.concat "/")
    "/app/node_modules/next/dist" "/app/node_modules/next/dist/pages"
    "/app" (sample_context dev isServer) webpack.

(* a hook that raises *)
Definition failing_hook : Hook := fun _ _ => Throw (Thrown "hook failed").

(* a hook that wraps the entry thunk to put a module under [main.js] *)
Definition prepend_hook : Hook :=
  fun c _ =>
    Ok (set_entry c
          (fun _ => m <~ entry c tt;
                    Ok (<["main.js" := ["./polyfills.js"]]> m))).

(* hooks that replace the entry thunk *)
Definition pages_only_hook : Hook :=
  fun c _ => Ok (set_entry c (fun _ => Ok ∅)).

Definition polyfill_hook : Hook :=
  fun c _ => Ok (set_entry c (fun _ => Ok {["main.js" := ["./polyfills.js"]]})).

(* a store with the client entries at 1 and the page entries at 2 *)
Definition sample_heap : Store.heap :=
  Store.Heap
    (<[1%positive := <["main.js" := 1%positive]>
                     {["static/commons/main.js" := 2%positive]}]>
     {[2%positive := {["bundles/pages/index.js" := 3%positive]}]})
    (<[1%positive := []]>
     (<[2%positive := ["/app/node_modules/next/dist/client/next"]]>
      {[3%positive := ["/app/pages/index.js"]]})).

(* the entry mapping of a finished build *)
Definition final_entries (r : result Configuration) : result entries :=
  c <~ r; entry c tt.

(** ** The rest of the configuration object

    The parts of the object literal of [getBaseWebpackConfig] that the
    record [Configuration] does not carry, each as the expression the source
    has for it. *)

(* [s.split(c)] for a separator of one character *)
Fixpoint split_char (c : ascii) (s : string) : list string :=
  match s with
  | EmptyString => [EmptyString]
  | String a s' =>
      if Ascii.eqb a c then EmptyString :: split_char c s'
      else
        match split_char c s' with
        | seg :: segs => String a seg :: segs
        | [] => [String a EmptyString]
        end
  end.

Definition path_separator (platform : string) : ascii :=
  if String.eqb platform "win32" then ";"%char else ":"%char.

(* Support for NODE_PATH: [process.env.NODE_PATH] is a string or
   [undefined], and [x || ''] replaces both [undefined] and [''] by [''] *)
Definition nodePathList (NODE_PATH : option string) (platform : string)
  : list string :=
  List.filter truthy
    (split_char (path_separator platform)
       (match NODE_PATH with
        | Some s => if truthy s then s else ""
        | None => ""
        end)).

(* [JSON.stringify] of a string: the text between double quotes, with the
   quote, the backslash and the control characters escaped *)
Definition dquote : ascii := "034"%char.

Definition hex_digit (n : N) : ascii :=
  match n with
  | 0 => "0" | 1 => "1" | 2 => "2" | 3 => "3" | 4 => "4" | 5 => "5"
  | 6 => "6" | 7 => "7" | 8 => "8" | 9 => "9" | 10 => "a" | 11 => "b"
  | 12 => "c" | 13 => "d" | 14 => "e" | _ => "f"
  end%N%char.

Definition json_escape (a : ascii) : string :=
  let n := N_of_ascii a in
  if Ascii.eqb a dquote then String "\" (String dquote "")
  else if Ascii.eqb a "\" then String "\" (String "\" "")
  else if (n =? 8)%N then String "\" "b"
  else if (n =? 9)%N then String "\" "t"
  else if (n =? 10)%N then String "\" "n"
  else if (n =? 12)%N then String "\" "f"
  else if (n =? 13)%N then String "\" "r"
  else if (n <? 32)%N
  then String "\" ("u00" +:+ String (hex_digit (n / 16)) (String (hex_digit (n mod 16)) ""))
  else String a "".

Fixpoint json_escape_all (s : string) : string :=
  match s with
  | EmptyString => EmptyString
  | String a r => json_escape a +:+ json_escape_all r
  end.

Definition JSON_stringify (s : string) : string :=
  String dquote (json_escape_all s +:+ String dquote "").

(* the plugins, with the options the source gives them; the two regular
   expressions of [IgnorePlugin] are constants of the source *)
Inductive Plugin : Type :=
| ChunkNamesPlugin
| ReactLoadablePlugin (filename : string)
| WebpackBar (name : string)
| FriendlyErrorsWebpackPlugin
| IgnorePlugin
| NextJsRequireCacheHotReloader
| HotModuleReplacementPlugin
| NoEmitOnErrorsPlugin
| UnlinkFilePlugin
| CaseSensitivePathPlugin
| WriteFilePlugin (exitOnErrors log useHashIndex : bool)
| DefinePlugin (definitions : list (string * string))
| ModuleConcatenationPlugin
| PagesManifestPlugin
| BuildManifestPlugin
| PagesPlugin
| NextJsSsrImportPlugin
| NextJsSSRModuleCachePlugin (outputPath : string).

(* [cond && new P()]: [false] when the condition fails *)
Definition gate (cond : bool) (p : Plugin) : option Plugin :=
  if cond then Some p else None.

Section Pipeline.

Variable path_join : list string -> string.
Variable SERVER_DIRECTORY : string.
Variable REACT_LOADABLE_MANIFEST : string.
Variable NEXT_PROJECT_ROOT_NODE_MODULES : string.
Variable dirname : string.                     (* [__dirname] *)

Definition outputPath (dir : string) (ctx : BaseConfigContext) : string :=
  path_join [dir; distDir (config ctx);
             if isServer ctx then SERVER_DIRECTORY else ""].

Definition recordsPath (dir : string) (ctx : BaseConfigContext) : string :=
  path_join [outputPath dir ctx; "records.json"].

(* [resolve.modules] *)
Definition resolveModules (nodePaths : list string) : list string :=
  [NEXT_PROJECT_ROOT_NODE_MODULES; "node_modules"] ++ nodePaths.

(* [resolveLoader.modules] *)
Definition resolveLoaderModules (nodePaths : list string) : list string :=
  [NEXT_PROJECT_ROOT_NODE_MODULES; "node_modules";
   path_join [dirname; "webpack"; "loaders"]] ++ nodePaths.

(* [plugins: [...].filter(Boolean)] *)
Definition plugins (dir : string) (ctx : BaseConfigContext) : list Plugin :=
  let dev := dev ctx in
  let isServer := isServer ctx in
  omap id
    [ (* This plugin makes sure `output.filename` is used for entry chunks *)
      Some ChunkNamesPlugin;
      gate (negb isServer) (ReactLoadablePlugin REACT_LOADABLE_MANIFEST);
      Some (WebpackBar (if isServer then "server" else "client"));
      gate (dev && negb isServer) FriendlyErrorsWebpackPlugin;
      Some IgnorePlugin;
      gate dev NextJsRequireCacheHotReloader;
      gate (dev && negb isServer) HotModuleReplacementPlugin;
      gate dev NoEmitOnErrorsPlugin;
      gate dev UnlinkFilePlugin;
      gate dev CaseSensitivePathPlugin;
      gate dev (WriteFilePlugin false false false);
      Some (DefinePlugin
              [("process.env.NODE_ENV",
                JSON_stringify (if dev then "development" else "production"))]);
      gate (negb dev) ModuleConcatenationPlugin;
      gate isServer PagesManifestPlugin;
      gate (negb isServer) BuildManifestPlugin;
      gate (negb isServer) PagesPlugin;
      gate isServer NextJsSsrImportPlugin;
      gate isServer (NextJsSSRModuleCachePlugin (outputPath dir ctx)) ].

End Pipeline.

(* plugins that only make sense while developing *)
Definition dev_only (p : Plugin) : bool :=
  match p with
  | FriendlyErrorsWebpackPlugin | NextJsRequireCacheHotReloader
  | HotModuleReplacementPlugin | NoEmitOnErrorsPlugin | UnlinkFilePlugin
  | CaseSensitivePathPlugin | WriteFilePlugin _ _ _ => true
  | _ => false
  end.

(** ** More vocabulary *)

(* the path holds [node_modules/webpack], with either separator *)
Definition has_webpack_segment (res : string) : Prop :=
  exists pre post c,
    is_sep c /\ res = pre +:+ "node_modules" +:+ String c ("webpack" +:+ post).

(* a text without line terminators *)
Fixpoint single_line (s : string) : bool :=
  match s with
  | EmptyString => true
  | String a r => negb (Regex.line_terminator a) && single_line r
  end.

(* the path holds [node_modules/], and what follows it is one line that
   ends in [.js] *)
Definition node_modules_script (res : string) : Prop :=
  exists pre mid c,
    is_sep c /\ single_line mid = true /\
    res = pre +:+ "node_modules" +:+ String c (mid +:+ ".js").

(* [s.endsWith(suf)] *)
Definition ends_with (suf s : string) : bool :=
  String.eqb
    (substring (String.length s - String.length suf) (String.length suf) s) suf.

(* [/node_modules[/\\]/], the head of the third regular expression *)
Definition re_node_modules : list Regex.atom :=
  Regex.lit "node_modules" ++ [sep].

(* no character of the text is [c] *)
Fixpoint free_of (c : ascii) (s : string) : bool :=
  match s with
  | EmptyString => true
  | String a r => negb (Ascii.eqb a c) && free_of c r
  end.

(** * Properties *)

(** ** Regular expressions *)

Module RegexFacts.

Import Regex.

Lemma exec_after_prefix p pre s rest :
  match_here p s = Some rest ->
  exists r, exec p (pre +:+ s) = Some r.
Proof.
  intros Hm. induction pre as [|a pre IH]; simpl.
  - destruct s; simpl in *; rewrite Hm; eauto.
  - destruct (match_here p (String a (pre +:+ s))); [eauto|].
    destruct IH as [[[pre' m] post] ->]. eauto.
Qed.

Lemma test_after_prefix p pre s rest :
  match_here p s = Some rest -> test p (pre +:+ s) = true.
Proof.
  intros Hm. unfold test.
  destruct (exec_after_prefix p pre s rest Hm) as [r ->]. reflexivity.
Qed.

Lemma dollar_free_app s t :
  dollar_free (s +:+ t) = dollar_free s && dollar_free t.
Proof.
  induction s as [|a s IH]; simpl; [reflexivity|].
  rewrite IH. apply andb_assoc.
Qed.

Lemma get_substitution_dollar_free m pre post repl :
  dollar_free repl = true -> get_substitution m pre post repl = repl.
Proof.
  induction repl as [|a r IH]; simpl; [reflexivity|].
  intros [Ha Hr]%andb_prop. rewrite (IH Hr).
  destruct (Ascii.eqb_spec a "$") as [->|Hne]; [discriminate|].
  destruct a as [[] [] [] [] [] [] [] []]; try reflexivity.
  exfalso. apply Hne. reflexivity.
Qed.

End RegexFacts.

(** ** The optimization policy *)

(** C8: for a server build the optimization result has chunk splitting off
    ([splitChunks] is [false]) and minification off ([minimize] is [false]),
    whatever the [dev] flag and the page count. *)
Theorem server_optimization_disabled (dir : string) (dev : bool) (totalPages : nat) :
  splitChunks (optimizationConfig dir dev true totalPages) = None /\
  minimize (optimizationConfig dir dev true totalPages) = Some false.
Proof. split; reflexivity. Qed.

Lemma commons_threshold_client_production dir n :
  commons_threshold (optimizationConfig dir false false n) =
  Some (if (2 <? n)%nat then (inject_Z (Z.of_nat n) * (1 # 2))%Q else 2%Q).
Proof. reflexivity. Qed.

(** C1, as the code has it: the client production result always has a
    commons group; its threshold is 2 up to two pages and exactly half the
    page count above, without rounding.  An integer number of chunks
    reaches that threshold exactly when it reaches the rounded-up half. *)
Theorem commons_threshold_half (dir : string) (n : nat) :
  exists q,
    commons_threshold (optimizationConfig dir false false n) = Some q /\
    ((n <= 2)%nat -> q = 2%Q) /\
    ((2 < n)%nat ->
       (q == inject_Z (Z.of_nat n) * (1 # 2))%Q /\
       forall k : Z,
         (q <= inject_Z k)%Q <->
         (Qceiling (inject_Z (Z.of_nat n) * (1 # 2)) <= k)%Z).
Proof.
  eexists. split; [apply commons_threshold_client_production|].
  split.
  - intros Hn. apply Nat.ltb_ge in Hn. rewrite Hn. reflexivity.
  - intros Hn. apply Nat.ltb_lt in Hn. rewrite Hn.
    split; [reflexivity|].
    intros k. set (x := (inject_Z (Z.of_nat n) * (1 # 2))%Q).
    split.
    + intros Hle. apply Qceiling_resp_le in Hle.
      rewrite Qceiling_Z in Hle. exact Hle.
    + intros Hle. eapply Qle_trans; [apply Qle_ceiling|].
      rewrite <- Zle_Qle. exact Hle.
Qed.

Lemma commons_threshold_half_witness :
  exists q,
    commons_threshold (optimizationConfig "/app" false false 10) = Some q /\
    (q == 5)%Q.
Proof.
  destruct (commons_threshold_half "/app" 10) as [q [Hq [_ Hbig]]].
  exists q. split; [exact Hq|].
  destruct Hbig as [Heq _]; [lia|].
  rewrite Heq. reflexivity.
Defined.

(** C1, as stated, fails at five pages: the threshold is 5/2, not
    [ceil (5 * 0.5) = 3]. *)
Lemma commons_threshold_five_pages :
  commons_threshold (optimizationConfig "/app" false false 5) = Some (5 # 2)%Q /\
  Qceiling (inject_Z 5 * (1 # 2)) = 3%Z /\
  ~ (5 # 2 == 3)%Q.
Proof.
  split; [reflexivity|]. split; [reflexivity|].
  intros H. vm_compute in H. discriminate H.
Qed.

(** ** The externals policy *)

Lemma default_pages_segment_matches res :
  has_default_pages_segment res -> Regex.test re_default_pages res = true.
Proof.
  intros (pre & post & c1 & c2 & c3 & H1 & H2 & H3 & ->).
  apply RegexFacts.test_after_prefix with (rest := post).
  destruct H1 as [-> | ->], H2 as [-> | ->], H3 as [-> | ->]; reflexivity.
Qed.

(** C9: a request whose resolved path holds the default-pages segment
    [node_modules/next/dist/pages] is bundled by every externals function of
    the server configuration (there is exactly one), whatever else the path
    holds. *)
Theorem default_pages_never_external
  (resolve : Resolver) (dir context request res : string) :
  resolve request {| basedir := dir; preserveSymlinks := true |} = Resolved res ->
  has_default_pages_segment res ->
  externalsConfig resolve dir true = [external resolve dir] /\
  forall f, f ∈ externalsConfig resolve dir true -> bundled (f context request).
Proof.
  intros Hres Hseg. split; [reflexivity|].
  intros f ->%list_elem_of_singleton.
  unfold external. rewrite Hres.
  rewrite (default_pages_segment_matches res Hseg).
  split; reflexivity.
Qed.

Lemma default_pages_never_external_witness :
  Regex.test re_node_modules_js "/app/node_modules/next/dist/pages/_error.js" = true /\
  bundled (external sample_resolver "/app" "/app/pages" "next/dist/pages/_error.js") /\
  external sample_resolver "/app" "/app/pages" "lodash"
  = Callback None (Some "commonjs lodash").
Proof.
  split; [reflexivity|]. split; [|reflexivity].
  apply (default_pages_never_external sample_resolver "/app" "/app/pages"
           "next/dist/pages/_error.js"
           "/app/node_modules/next/dist/pages/_error.js").
  - reflexivity.
  - exists "/app/", "/_error.js", "/"%char, "/"%char, "/"%char.
    unfold is_sep. repeat split; auto.
  - apply list_elem_of_singleton. reflexivity.
Defined.

(** C10: when the resolution of a request fails, every externals function
    of the server configuration calls back without an error and without an
    externalization: the request is bundled and the failure is dropped. *)
Theorem resolution_failure_is_bundled
  (resolve : Resolver) (dir context request : string) (err : exn) :
  resolve request {| basedir := dir; preserveSymlinks := true |} = ResolveErr err ->
  externalsConfig resolve dir true = [external resolve dir] /\
  forall f, f ∈ externalsConfig resolve dir true ->
    f context request = Callback None None.
Proof.
  intros Hres. split; [reflexivity|].
  intros f ->%list_elem_of_singleton.
  unfold external. rewrite Hres. reflexivity.
Qed.

Lemma resolution_failure_is_bundled_witness :
  external sample_resolver "/app" "/app/pages" "./missing"
  = Callback None None.
Proof.
  apply (resolution_failure_is_bundled sample_resolver "/app" "/app/pages"
           "./missing" (Thrown "Cannot find module")).
  - reflexivity.
  - apply list_elem_of_singleton. reflexivity.
Defined.

(** ** Output naming *)

Lemma append_empty_r (s : string) : s +:+ "" = s.
Proof.
  induction s as [|a s IH]; [reflexivity|].
  change (String a (s +:+ "") = String a s). f_equal. exact IH.
Qed.

Lemma replace_js_ext_hash (stem h : string) :
  Regex.exec re_js_ext (stem +:+ ".js") = Some (stem, ".js", "") ->
  Regex.dollar_free h = true ->
  Regex.replace re_js_ext (stem +:+ ".js") ("-" +:+ h +:+ ".js")
  = stem +:+ "-" +:+ h +:+ ".js".
Proof.
  intros Hexec Hh. unfold Regex.replace. rewrite Hexec.
  rewrite RegexFacts.get_substitution_dollar_free, append_empty_r; [reflexivity|].
  change (Regex.dollar_free ("-" +:+ (h +:+ ".js")) = true).
  rewrite !RegexFacts.dollar_free_app, Hh. reflexivity.
Qed.

(** C7, as the code has it: in production, for the two infrastructure
    chunks and a hash in which [$] does not occur, the file name is the
    chunk name with [-] and the hash put in front of its [.js] extension;
    for every other chunk, and for every chunk in development, the function
    returns the bundler's template [[name]], not the chunk name. *)
Theorem filename_policy (dev : bool) (chunk : Chunk) :
  (dev = false -> Regex.dollar_free (renderedHash chunk) = true ->
   (name chunk = "static/commons/main.js" ->
    filename dev chunk
    = "static/commons/main" +:+ "-" +:+ renderedHash chunk +:+ ".js") /\
   (name chunk = "static/commons/runtime.js" ->
    filename dev chunk
    = "static/commons/runtime" +:+ "-" +:+ renderedHash chunk +:+ ".js")) /\
  (dev = true \/ ~ infrastructure_chunk (name chunk) ->
   filename dev chunk = "[name]").
Proof.
  split.
  - intros -> Hh. unfold filename.
    split; intros ->.
    + apply (replace_js_ext_hash "static/commons/main"); [reflexivity|exact Hh].
    + apply (replace_js_ext_hash "static/commons/runtime"); [reflexivity|exact Hh].
  - intros [-> | Hn]; [reflexivity|].
    unfold filename.
    destruct (String.eqb_spec (name chunk) "static/commons/main.js") as [E|_].
    { exfalso. apply Hn. left. exact E. }
    destruct (String.eqb_spec (name chunk) "static/commons/runtime.js") as [E|_].
    { exfalso. apply Hn. right. exact E. }
    rewrite andb_false_r. reflexivity.
Qed.

Lemma filename_policy_witness :
  filename false {| name := "static/commons/runtime.js"; renderedHash := "0a1b2c" |}
  = "static/commons/runtime-0a1b2c.js" /\
  filename true {| name := "static/commons/runtime.js"; renderedHash := "0a1b2c" |}
  = "[name]".
Proof.
  split.
  - apply (filename_policy false
      {| name := "static/commons/runtime.js"; renderedHash := "0a1b2c" |});
      reflexivity.
  - apply (filename_policy true
      {| name := "static/commons/runtime.js"; renderedHash := "0a1b2c" |}).
    left. reflexivity.
Defined.

(** C7, as stated, fails: a page chunk gets the template [[name]] and not
    its name, and a hash that holds a replacement pattern is not inserted
    as it is. *)
Lemma filename_not_chunk_name :
  filename false {| name := "bundles/pages/index.js"; renderedHash := "0a1b2c" |}
  = "[name]" /\
  filename false {| name := "bundles/pages/index.js"; renderedHash := "0a1b2c" |}
  <> "bundles/pages/index.js" /\
  filename false {| name := "static/commons/main.js"; renderedHash := "$&" |}
  = "static/commons/main-.js.js".
Proof. split; [reflexivity|]. split; [discriminate|reflexivity]. Qed.

(** ** The closing rewrite of the entry mapping *)

Lemma closing_entry_present (orig : thunk) (m : entries) main rest :
  orig tt = Ok m ->
  m !! "main.js" = Some main ->
  m !! "static/commons/main.js" = Some rest ->
  closing_entry orig tt
  = Ok (delete "main.js" (<["static/commons/main.js" := main ++ rest]> m)).
Proof.
  intros Ho Hm Hc. unfold closing_entry. rewrite Ho. simpl.
  rewrite Hm, Hc. reflexivity.
Qed.

Lemma closing_entry_absent (orig : thunk) (m : entries) :
  orig tt = Ok m ->
  m !! "main.js" = None ->
  closing_entry orig tt = Ok m.
Proof.
  intros Ho Hm. unfold closing_entry. rewrite Ho. simpl.
  rewrite Hm. reflexivity.
Qed.

Lemma closing_entry_no_commons (orig : thunk) (m : entries) main :
  orig tt = Ok m ->
  m !! "main.js" = Some main ->
  m !! "static/commons/main.js" = None ->
  closing_entry orig tt = Throw TypeError.
Proof.
  intros Ho Hm Hc. unfold closing_entry. rewrite Ho. simpl.
  rewrite Hm, Hc. reflexivity.
Qed.

Lemma closing_entry_failure (orig : thunk) (e : exn) :
  orig tt = Throw e -> closing_entry orig tt = Throw e.
Proof. intros Ho. unfold closing_entry. rewrite Ho. reflexivity. Qed.

(** C2, as the code has it: when the mapping of the underlying thunk has
    both [main.js] and [static/commons/main.js], the rewrite maps
    [static/commons/main.js] to the modules of [main.js] followed by its
    previous modules and removes [main.js]; when [main.js] is absent the
    mapping is returned as it is.  [{main.js: [A], static/commons/main.js:
    [B]}] becomes [{static/commons/main.js: [A, B]}]. *)
Theorem closing_rewrite_merges :
  (forall (orig : thunk) (m : entries),
     orig tt = Ok m ->
     (forall main rest,
        m !! "main.js" = Some main ->
        m !! "static/commons/main.js" = Some rest ->
        closing_entry orig tt
        = Ok (delete "main.js"
                (<["static/commons/main.js" := main ++ rest]> m))) /\
     (m !! "main.js" = None -> closing_entry orig tt = Ok m)) /\
  (forall A B : string,
     closing_entry
       (fun _ => Ok (<["main.js" := [A]]> {["static/commons/main.js" := [B]]})) tt
     = Ok {["static/commons/main.js" := [A; B]]}).
Proof.
  split.
  - intros orig m Ho. split.
    + intros main rest. apply closing_entry_present. exact Ho.
    + apply closing_entry_absent. exact Ho.
  - intros A B.
    rewrite (closing_entry_present _ _ [A] [B] eq_refl).
    2: { apply lookup_insert_eq. }
    2: { rewrite lookup_insert_ne by discriminate. apply lookup_singleton_eq. }
    reflexivity.
Qed.

Lemma closing_rewrite_merges_witness :
  closing_entry
    (fun _ => Ok (<["main.js" := ["./polyfills.js"]]>
                  {["static/commons/main.js" := ["next/dist/client/next"]]})) tt
  = Ok {["static/commons/main.js" := ["./polyfills.js"; "next/dist/client/next"]]}.
Proof.
  apply (proj2 closing_rewrite_merges "./polyfills.js" "next/dist/client/next").
Defined.

(** C2, as stated, fails on a mapping that has [main.js] and no
    [static/commons/main.js]: nothing is written and nothing is removed, a
    [TypeError] is raised. *)
Lemma closing_rewrite_without_commons :
  closing_entry (fun _ => Ok {["main.js" := ["./polyfills.js"]]}) tt
  = Throw TypeError /\
  ~ rewrite_as_specified {["main.js" := ["./polyfills.js"]]}
      (closing_entry (fun _ => Ok {["main.js" := ["./polyfills.js"]]}) tt).
Proof.
  assert (closing_entry (fun _ => Ok {["main.js" := ["./polyfills.js"]]}) tt
          = Throw TypeError) as E.
  { eapply closing_entry_no_commons; [reflexivity | apply lookup_singleton_eq |].
    apply lookup_singleton_ne. discriminate. }
  split; [exact E|].
  unfold rewrite_as_specified. rewrite E, lookup_singleton_eq. discriminate.
Qed.

(** C3, as the code has it: evaluating the rewritten thunk succeeds exactly
    when the underlying thunk succeeds with a mapping that has no [main.js]
    or has [static/commons/main.js]; on a mapping with [main.js] and
    without [static/commons/main.js] it raises a [TypeError]; and a failure
    of the underlying thunk is passed on as it is. *)
Theorem closing_entry_outcome (orig : thunk) :
  ((exists m', closing_entry orig tt = Ok m') <->
   (exists m, orig tt = Ok m /\
      (m !! "main.js" = None \/ is_Some (m !! "static/commons/main.js")))) /\
  (forall m,
     orig tt = Ok m ->
     is_Some (m !! "main.js") ->
     m !! "static/commons/main.js" = None ->
     closing_entry orig tt = Throw TypeError) /\
  (forall e, orig tt = Throw e -> closing_entry orig tt = Throw e).
Proof.
  split; [split|split].
  - intros [m' H]. destruct (orig tt) as [m|e] eqn:Ho.
    + exists m. split; [reflexivity|].
      destruct (m !! "main.js") as [main|] eqn:Hm; [|left; reflexivity].
      destruct (m !! "static/commons/main.js") as [rest|] eqn:Hc; [right; eauto|].
      rewrite (closing_entry_no_commons orig m main Ho Hm Hc) in H. discriminate.
    + rewrite (closing_entry_failure orig e Ho) in H. discriminate.
  - intros (m & Ho & [Hm | [rest Hc]]).
    + exists m. apply closing_entry_absent; assumption.
    + destruct (m !! "main.js") as [main|] eqn:Hm.
      * eexists. eapply closing_entry_present; eassumption.
      * exists m. apply closing_entry_absent; assumption.
  - intros m Ho [main Hm] Hc. eapply closing_entry_no_commons; eassumption.
  - intros e Ho. apply closing_entry_failure. exact Ho.
Qed.

Lemma closing_entry_outcome_witness :
  closing_entry (fun _ => Ok {["main.js" := ["./polyfills.js"]]}) tt
  = Throw TypeError /\
  closing_entry (fun _ => Throw (Thrown "entry failed")) tt
  = Throw (Thrown "entry failed").
Proof.
  split.
  - apply (proj1 (proj2 (closing_entry_outcome
                           (fun _ => Ok {["main.js" := ["./polyfills.js"]]})))
             {["main.js" := ["./polyfills.js"]]}).
    + reflexivity.
    + eexists. reflexivity.
    + reflexivity.
  - apply (proj2 (proj2 (closing_entry_outcome
                           (fun _ => Throw (Thrown "entry failed"))))).
    reflexivity.
Defined.

(** ** The assembler *)

Section AssemblerFacts.

Variable resolve : Resolver.
Variable getPages : string -> GetPagesOpts -> result entries.
Variable path_join : list string -> string.
Variable NEXT_PROJECT_ROOT_DIST : string.
Variable DEFAULT_PAGES_DIR : string.

Lemma clientEntries_commons dev :
  is_Some (clientEntries path_join NEXT_PROJECT_ROOT_DIST dev false
             !! "static/commons/main.js").
Proof.
  unfold clientEntries. simpl.
  rewrite lookup_insert_ne by discriminate.
  rewrite lookup_insert_eq. eauto.
Qed.

Lemma base_entry_commons dev pagesEntries :
  exists m,
    base_entry path_join NEXT_PROJECT_ROOT_DIST dev false pagesEntries tt = Ok m /\
    is_Some (m !! "static/commons/main.js").
Proof.
  eexists. split; [reflexivity|].
  apply lookup_union_is_Some. right. apply clientEntries_commons.
Qed.

Lemma closing_entry_keeps_commons (orig : thunk) (m : entries) :
  orig tt = Ok m ->
  is_Some (m !! "static/commons/main.js") ->
  exists m', closing_entry orig tt = Ok m' /\
    is_Some (m' !! "static/commons/main.js") /\ m' !! "main.js" = None.
Proof.
  intros Ho [rest Hc].
  destruct (m !! "main.js") as [main|] eqn:Hm.
  - eexists. split; [eapply closing_entry_present; eassumption|].
    split; [|apply lookup_delete_eq].
    rewrite lookup_delete_ne by discriminate.
    rewrite lookup_insert_eq. eauto.
  - exists m. split; [apply closing_entry_absent; assumption|].
    split; [eauto | exact Hm].
Qed.

Lemma getBaseWebpackConfig_no_hook dir ctx pages :
  getPages dir (pagesOptions DEFAULT_PAGES_DIR ctx) = Ok pages ->
  getBaseWebpackConfig resolve getPages path_join NEXT_PROJECT_ROOT_DIST
    DEFAULT_PAGES_DIR dir ctx None
  = Ok (set_entry
          (baseConfig resolve path_join NEXT_PROJECT_ROOT_DIST dir ctx pages)
          (closing_entry
             (base_entry path_join NEXT_PROJECT_ROOT_DIST (dev ctx)
                (isServer ctx) pages))).
Proof. intros Hp. unfold getBaseWebpackConfig. rewrite Hp. reflexivity. Qed.

Lemma getBaseWebpackConfig_hook dir ctx pages hook :
  getPages dir (pagesOptions DEFAULT_PAGES_DIR ctx) = Ok pages ->
  getBaseWebpackConfig resolve getPages path_join NEXT_PROJECT_ROOT_DIST
    DEFAULT_PAGES_DIR dir ctx (Some hook)
  = (c <~ hook (baseConfig resolve path_join NEXT_PROJECT_ROOT_DIST dir ctx pages)
            (hookContext dir ctx (size pages));
     Ok (set_entry c (closing_entry (entry c)))).
Proof. intros Hp. unfold getBaseWebpackConfig. rewrite Hp. reflexivity. Qed.

(** C4, as the code has it: for a client build without a hook, or with a
    hook that hands back a configuration whose entry thunk yields a mapping
    with the key [static/commons/main.js], the assembly succeeds and the
    mapping of the final entry thunk has the key [static/commons/main.js]
    and not the key [main.js]. *)
Theorem client_entry_has_commons
  (dir : string) (ctx : BaseConfigContext) (webpack : option Hook)
  (pages : entries) :
  isServer ctx = false ->
  getPages dir (pagesOptions DEFAULT_PAGES_DIR ctx) = Ok pages ->
  (forall hook, webpack = Some hook ->
     exists c' m,
       hook (baseConfig resolve path_join NEXT_PROJECT_ROOT_DIST dir ctx pages)
            (hookContext dir ctx (size pages)) = Ok c' /\
       entry c' tt = Ok m /\
       is_Some (m !! "static/commons/main.js")) ->
  exists cfg m,
    getBaseWebpackConfig resolve getPages path_join NEXT_PROJECT_ROOT_DIST
      DEFAULT_PAGES_DIR dir ctx webpack = Ok cfg /\
    entry cfg tt = Ok m /\
    is_Some (m !! "static/commons/main.js") /\
    m !! "main.js" = None.
Proof.
  intros Hs Hp Hk. destruct webpack as [hook|].
  - rewrite (getBaseWebpackConfig_hook dir ctx pages hook Hp).
    destruct (Hk hook eq_refl) as (c' & m & -> & Hm & Hc).
    destruct (closing_entry_keeps_commons (entry c') m Hm Hc) as (m' & H1 & H2 & H3).
    eexists _, m'. split; [reflexivity|]. split; [exact H1|]. split; assumption.
  - rewrite (getBaseWebpackConfig_no_hook dir ctx pages Hp).
    destruct (base_entry_commons (dev ctx) pages) as (m & Hm & Hc).
    rewrite Hs.
    destruct (closing_entry_keeps_commons _ m Hm Hc) as (m' & H1 & H2 & H3).
    eexists _, m'. split; [reflexivity|]. split; [exact H1|]. split; assumption.
Qed.

(** C6: when the hook is present and raises on the assembled
    configuration, the assembler raises the same failure and returns no
    configuration. *)
Theorem hook_failure_propagates
  (dir : string) (ctx : BaseConfigContext) (hook : Hook)
  (pages : entries) (e : exn) :
  getPages dir (pagesOptions DEFAULT_PAGES_DIR ctx) = Ok pages ->
  hook (baseConfig resolve path_join NEXT_PROJECT_ROOT_DIST dir ctx pages)
       (hookContext dir ctx (size pages)) = Throw e ->
  getBaseWebpackConfig resolve getPages path_join NEXT_PROJECT_ROOT_DIST
    DEFAULT_PAGES_DIR dir ctx (Some hook) = Throw e.
Proof.
  intros Hp Hh. rewrite (getBaseWebpackConfig_hook dir ctx pages hook Hp).
  rewrite Hh. reflexivity.
Qed.

End AssemblerFacts.

Lemma client_entry_has_commons_witness :
  exists cfg m,
    sample_build false false (Some prepend_hook) = Ok cfg /\
    entry cfg tt = Ok m /\
    is_Some (m !! "static/commons/main.js") /\
    m !! "main.js" = None.
Proof.
  apply (client_entry_has_commons sample_resolver sample_getPages
           (String.concat "/") "/app/node_modules/next/dist"
           "/app/node_modules/next/dist/pages" "/app"
           (sample_context false false) (Some prepend_hook)
           (<["bundles/pages/index.js" := ["/app/pages/index.js"]]>
            {["bundles/pages/_error.js" := ["/app/pages/_error.js"]]})).
  - reflexivity.
  - reflexivity.
  - intros hook [= <-]. eexists _, _.
    split; [reflexivity|]. split; [reflexivity|].
    eexists. reflexivity.
Defined.

Example sample_client_entries :
  final_entries (sample_build false false (Some prepend_hook))
  = Ok (<["static/commons/main.js" :=
            ["./polyfills.js"; "/app/node_modules/next/dist/client/next"]]>
        (<["bundles/pages/index.js" := ["/app/pages/index.js"]]>
         {["bundles/pages/_error.js" := ["/app/pages/_error.js"]]}))
  /\ final_entries (sample_build false true None)
  = Ok (<["bundles/pages/index.js" := ["/app/pages/index.js"]]>
        {["bundles/pages/_error.js" := ["/app/pages/_error.js"]]}).
Proof. split; vm_compute; reflexivity. Qed.

Lemma hook_failure_propagates_witness :
  sample_build true false (Some failing_hook) = Throw (Thrown "hook failed").
Proof.
  apply (hook_failure_propagates sample_resolver sample_getPages
           (String.concat "/") "/app/node_modules/next/dist"
           "/app/node_modules/next/dist/pages" "/app"
           (sample_context true false) failing_hook
           (<["bundles/pages/index.js" := ["/app/pages/index.js"]]>
            {["bundles/pages/_error.js" := ["/app/pages/_error.js"]]})).
  - reflexivity.
  - reflexivity.
Defined.

(** C4, as stated, fails: a hook that replaces the entry thunk by one with
    page entries only leaves the final client mapping without the key
    [static/commons/main.js]. *)
Lemma client_entry_without_commons :
  final_entries (sample_build false false (Some pages_only_hook)) = Ok ∅ /\
  (∅ : entries) !! "static/commons/main.js" = None.
Proof. split; reflexivity. Qed.

(** C3, as stated, fails: a hook whose entry thunk yields a mapping with
    [main.js] and without [static/commons/main.js] makes the final entry
    thunk raise a [TypeError]. *)
Lemma closing_entry_raises :
  final_entries (sample_build false false (Some polyfill_hook)) = Throw TypeError /\
  ~ exists m',
      closing_entry (fun _ => Ok {["main.js" := ["./polyfills.js"]]}) tt = Ok m'.
Proof.
  split; [reflexivity|].
  intros [m' H]. vm_compute in H. discriminate H.
Qed.

(** ** The entry thunk over a store *)

Module StoreFacts.

(* the thunks over values, before the ones over the store take the names *)
Local Abbreviation value_closing_entry := closing_entry.
Local Abbreviation value_base_entry := base_entry.

Import Store.

Lemma heap_le_refl h : heap_le h h.
Proof. split; reflexivity. Qed.

Lemma heap_le_trans h1 h2 h3 : heap_le h1 h2 -> heap_le h2 h3 -> heap_le h1 h3.
Proof. intros [? ?] [? ?]. split; etrans; eassumption. Qed.

Lemma fresh_none {V} (m : gmap positive V) : m !! fresh (dom m) = None.
Proof. apply not_elem_of_dom, is_fresh. Qed.

Lemma heap_le_alloc_obj h props :
  heap_le h (Heap (<[fresh (dom (objs h)) := props]> (objs h)) (arrs h)).
Proof.
  split; simpl; [|reflexivity].
  apply insert_subseteq, fresh_none.
Qed.

Lemma closing_entry_run (orig : M oref) (h : heap) :
  closing_entry orig h =
  match orig h with
  | (Ok original, h1) => closing_run original h1
  | (Throw e, h1) => (Throw e, h1)
  end.
Proof.
  unfold closing_entry, bind at 1.
  destruct (orig h) as [[original|e] h1]; [|reflexivity].
  cbv beta iota zeta delta
    [closing_run bind own_props alloc_obj get_prop spread_array
     alloc_arr set_prop delete_prop ret].
  cbn [objs arrs].
  generalize (default ∅ (objs h1 !! original)). intros props.
  generalize (fresh (dom (objs h1))). intros entry.
  rewrite !lookup_insert_eq. cbn [default from_option id].
  destruct (props !! "main.js") as [m|] eqn:Hm; [|reflexivity].
  cbn [objs arrs]. rewrite !lookup_insert_eq. cbn [default from_option id].
  rewrite Hm.
  destruct (arrs h1 !! m) as [ms|]; [|reflexivity].
  cbn [objs arrs]. rewrite !lookup_insert_eq. cbn [default from_option id].
  destruct (props !! "static/commons/main.js") as [c|]; [|reflexivity].
  cbn [mbind option_bind objs arrs].
  destruct (arrs h1 !! c) as [cs|]; [|reflexivity].
  cbn [objs arrs].
  rewrite alter_alter_eq, alter_insert_eq. reflexivity.
Qed.

Lemma base_entry_run (c p : oref) (h : heap) :
  base_entry c p h =
  (Ok (fresh (dom (objs h))),
   Heap (<[fresh (dom (objs h)) :=
             default ∅ (objs h !! p) ∪ default ∅ (objs h !! c)]> (objs h))
        (arrs h)).
Proof. reflexivity. Qed.

(** *** An invocation only allocates *)

Lemma closing_run_le (original : oref) (h1 : heap) :
  heap_le h1 (closing_run original h1).2.
Proof.
  unfold closing_run.
  destruct (default ∅ (objs h1 !! original) !! "main.js") as [m|];
    [|apply heap_le_alloc_obj].
  destruct (arrs h1 !! m) as [ms|]; [|apply heap_le_alloc_obj].
  destruct (default ∅ (objs h1 !! original) !! "static/commons/main.js"
            ≫= (fun c => arrs h1 !! c)) as [cs|]; [|apply heap_le_alloc_obj].
  split; simpl; apply insert_subseteq, fresh_none.
Qed.

Lemma base_entry_preserving (c p : oref) : preserving (base_entry c p).
Proof. intros h. rewrite base_entry_run. apply heap_le_alloc_obj. Qed.

Lemma closing_entry_preserving (orig : M oref) :
  preserving orig -> preserving (closing_entry orig).
Proof.
  intros Ho h. rewrite closing_entry_run. specialize (Ho h).
  destruct (orig h) as [[original|e] h1]; simpl in *; [|exact Ho].
  eapply heap_le_trans; [exact Ho|apply closing_run_le].
Qed.

Lemma invoke_n_le (c : M oref) (n k : nat) (h : heap) :
  preserving c -> heap_le (invoke_n c n h) (invoke_n c (k + n) h).
Proof.
  intros Hc. induction k as [|k IH]; simpl; [apply heap_le_refl|].
  eapply heap_le_trans; [exact IH|apply Hc].
Qed.

(** *** What is allocated stays readable, with the same contents *)

Lemma allocated_mono (h h' : heap) (r : oref) :
  heap_le h h' -> allocated h r -> allocated h' r.
Proof.
  intros [Ho Ha] (props & Hr & Hp). exists props. split.
  - eapply lookup_weaken; eassumption.
  - intros k a Hk. destruct (Hp k a Hk) as [l Hl]. exists l.
    eapply lookup_weaken; eassumption.
Qed.

Lemma view_allocated (h : heap) (r : oref) (props : gmap string aref) (k : string) :
  objs h !! r = Some props ->
  view h r !! k = props !! k ≫= (fun a => arrs h !! a).
Proof. intros Hr. unfold view. rewrite Hr. simpl. apply lookup_omap. Qed.

Lemma view_mono (h h' : heap) (r : oref) :
  heap_le h h' -> allocated h r -> view h' r = view h r.
Proof.
  intros [Ho Ha] (props & Hr & Hp). apply map_eq. intros k.
  rewrite (view_allocated h r props k Hr).
  rewrite (view_allocated h' r props k (lookup_weaken _ _ _ _ Hr Ho)).
  destruct (props !! k) as [a|] eqn:Hk; simpl; [|reflexivity].
  destruct (Hp k a Hk) as [l Hl]. rewrite Hl.
  eapply lookup_weaken; eassumption.
Qed.

(** *** The store-level thunk computes what the value-level thunk does *)

Lemma closing_run_refines (original : oref) (h1 : heap) :
  allocated h1 original ->
  observe (closing_run original h1)
  = value_closing_entry (fun _ => Ok (view h1 original)) tt.
Proof.
  intros (props & Hr & Hp).
  pose proof (view_allocated h1 original props "main.js" Hr) as Hvm.
  pose proof (view_allocated h1 original props "static/commons/main.js" Hr) as Hvc.
  unfold closing_run, value_closing_entry, rbind. rewrite Hr.
  cbn [default from_option id].
  set (entry := fresh (dom (objs h1))).
  destruct (props !! "main.js") as [m|] eqn:Hm.
  - destruct (Hp _ _ Hm) as [ms Hms]. cbn [mbind option_bind] in Hvm.
    rewrite Hms in Hvm. rewrite Hms, Hvm. cbn [spread_array].
    destruct (props !! "static/commons/main.js") as [c|] eqn:Hc.
    + destruct (Hp _ _ Hc) as [cs Hcs]. cbn [mbind option_bind] in Hvc |- *.
      rewrite Hcs in Hvc. rewrite Hcs, Hvc. cbn [spread_array observe].
      f_equal. apply map_eq. intros k.
      erewrite view_allocated by (cbn [objs]; apply lookup_insert_eq).
      cbn [arrs].
      destruct (decide (k = "main.js")) as [->|Hk].
      { rewrite !lookup_delete_eq. reflexivity. }
      rewrite !lookup_delete_ne by congruence.
      destruct (decide (k = "static/commons/main.js")) as [->|Hk'].
      { rewrite !lookup_insert_eq. cbn [mbind option_bind].
        apply lookup_insert_eq. }
      rewrite !lookup_insert_ne by congruence.
      rewrite (view_allocated h1 original props k Hr).
      destruct (props !! k) as [a'|] eqn:Hka; cbn [mbind option_bind];
        [|reflexivity].
      apply lookup_insert_ne. intros Heq.
      destruct (Hp k a' Hka) as [l Hl].
      rewrite <- Heq, fresh_none in Hl. discriminate.
    + cbn [mbind option_bind] in Hvc |- *. rewrite Hvc. reflexivity.
  - cbn [mbind option_bind] in Hvm. rewrite Hvm. cbn [observe].
    f_equal. apply map_eq. intros k.
    erewrite view_allocated by (cbn [objs]; apply lookup_insert_eq).
    rewrite (view_allocated h1 original props k Hr). reflexivity.
Qed.

Lemma closing_run_allocated (original r : oref) (h1 h' : heap) :
  allocated h1 original ->
  closing_run original h1 = (Ok r, h') ->
  allocated h' r.
Proof.
  intros (props & Hr & Hp). unfold closing_run. rewrite Hr.
  cbn [default from_option id].
  destruct (props !! "main.js") as [m|] eqn:Hm.
  - destruct (arrs h1 !! m) as [ms|]; [|discriminate].
    destruct (props !! "static/commons/main.js" ≫= (fun c => arrs h1 !! c))
      as [cs|]; [|discriminate].
    intros [= <- <-]. eexists. split; [cbn [objs]; apply lookup_insert_eq|].
    intros k a. cbn [arrs].
    destruct (decide (k = "main.js")) as [->|Hk].
    { rewrite lookup_delete_eq. discriminate. }
    rewrite lookup_delete_ne by congruence.
    destruct (decide (k = "static/commons/main.js")) as [->|Hk'].
    { rewrite lookup_insert_eq. intros [= <-]. rewrite lookup_insert_eq. eauto. }
    rewrite lookup_insert_ne by congruence. intros Hka.
    destruct (Hp k a Hka) as [l Hl]. exists l.
    rewrite lookup_insert_ne; [exact Hl|].
    intros Heq. rewrite <- Heq, fresh_none in Hl. discriminate.
  - intros [= <- <-]. exists props. split; [cbn [objs]; apply lookup_insert_eq|].
    exact Hp.
Qed.

Lemma base_entry_allocated (c p : oref) (h : heap) :
  allocated h c -> allocated h p ->
  allocated (base_entry c p h).2 (fresh (dom (objs h))) /\
  view (base_entry c p h).2 (fresh (dom (objs h))) = view h p ∪ view h c.
Proof.
  intros (cp & Hc & Hcp) (pp & Hp & Hpp). rewrite base_entry_run.
  rewrite Hc, Hp. cbn [default from_option id snd].
  assert (forall k a, (pp ∪ cp) !! k = Some a -> is_Some (arrs h !! a)) as Hall.
  { intros k a [Hk | [_ Hk]]%lookup_union_Some_raw; eauto. }
  split.
  - exists (pp ∪ cp). split; [cbn [objs]; apply lookup_insert_eq|exact Hall].
  - apply map_eq. intros k.
    erewrite view_allocated by (cbn [objs]; apply lookup_insert_eq).
    cbn [arrs]. rewrite !lookup_union.
    rewrite (view_allocated h p pp k Hp), (view_allocated h c cp k Hc).
    destruct (pp !! k) as [a|] eqn:Hk; cbn [mbind option_bind].
    + destruct (Hpp k a Hk) as [l Hl].
      rewrite union_Some_l. cbn [mbind option_bind].
      rewrite Hl, union_Some_l. reflexivity.
    + rewrite !(left_id_L None _). reflexivity.
Qed.

Lemma entry_thunk_run (c p : oref) (h : heap) :
  entry_thunk c p h =
  closing_run (fresh (dom (objs h))) (base_entry c p h).2.
Proof.
  unfold entry_thunk. rewrite closing_entry_run, base_entry_run. reflexivity.
Qed.

Lemma entry_thunk_preserving (c p : oref) : preserving (entry_thunk c p).
Proof. apply closing_entry_preserving, base_entry_preserving. Qed.

(** The thunk over the store returns the mapping that the thunk over
    values computes from the contents of the two mappings it closes
    over. *)
Lemma entry_thunk_refines (c p : oref) (h : heap) :
  allocated h c -> allocated h p ->
  outcome (entry_thunk c p) h
  = value_closing_entry (fun _ => Ok (view h p ∪ view h c)) tt.
Proof.
  intros Hc Hp. unfold outcome. rewrite entry_thunk_run.
  destruct (base_entry_allocated c p h Hc Hp) as [Ha Hv].
  rewrite (closing_run_refines _ _ Ha), Hv. reflexivity.
Qed.

Lemma entry_thunk_allocated (c p r : oref) (h h' : heap) :
  allocated h c -> allocated h p ->
  entry_thunk c p h = (Ok r, h') ->
  allocated h' r.
Proof.
  intros Hc Hp. rewrite entry_thunk_run.
  destruct (base_entry_allocated c p h Hc Hp) as [Ha _].
  apply closing_run_allocated. exact Ha.
Qed.

Lemma invoke_n_mono (c : M oref) (m n : nat) (h : heap) :
  preserving c -> m <= n -> heap_le (invoke_n c m h) (invoke_n c n h).
Proof.
  intros Hc Hmn. replace n with ((n - m) + m) by lia. apply invoke_n_le, Hc.
Qed.

Lemma invoke_n_extends (c : M oref) (n : nat) (h : heap) :
  preserving c -> heap_le h (invoke_n c n h).
Proof.
  intros Hc. pose proof (invoke_n_le c 0 n h Hc) as H.
  rewrite Nat.add_0_r in H. exact H.
Qed.

Lemma entry_thunk_refines_assembler
  (path_join : list string -> string) (root : string) (dev isServer : bool)
  (pages : entries) (c p : oref) (h : heap) :
  allocated h c -> allocated h p ->
  view h c = clientEntries path_join root dev isServer ->
  view h p = pages ->
  outcome (entry_thunk c p) h
  = value_closing_entry (value_base_entry path_join root dev isServer pages) tt.
Proof.
  intros Hc Hp Hvc Hvp. rewrite (entry_thunk_refines c p h Hc Hp), Hvc, Hvp.
  reflexivity.
Qed.

(** The entry thunk of a configuration assembled without a hook can
    be invoked any number of times.  Every invocation returns the same
    mapping (or raises the same failure); the store it started from is
    contained in every later store, so that the client entries, the page
    entries and every mapping returned before read as they did. *)
Theorem entry_thunk_reinvocable
  (h : heap) (clientEntries pagesEntries : oref) (n : nat) :
  allocated h clientEntries ->
  allocated h pagesEntries ->
  let thunk := entry_thunk clientEntries pagesEntries in
  let hn := invoke_n thunk n h in
  outcome thunk hn = outcome thunk h /\
  heap_le h hn /\
  view hn clientEntries = view h clientEntries /\
  view hn pagesEntries = view h pagesEntries /\
  (forall m r, m < n ->
     (thunk (invoke_n thunk m h)).1 = Ok r ->
     view hn r = view (invoke_n thunk (S m) h) r).
Proof.
  intros Hc Hp thunk hn.
  pose proof (entry_thunk_preserving clientEntries pagesEntries) as Hpres.
  assert (heap_le h hn) as Hle by (apply invoke_n_extends; exact Hpres).
  assert (view hn clientEntries = view h clientEntries) as Hvc
    by (apply view_mono; assumption).
  assert (view hn pagesEntries = view h pagesEntries) as Hvp
    by (apply view_mono; assumption).
  split; [|split; [exact Hle|split; [exact Hvc|split; [exact Hvp|]]]].
  - unfold thunk.
    rewrite (entry_thunk_refines _ _ hn)
      by (eapply allocated_mono; eassumption).
    rewrite (entry_thunk_refines _ _ h) by assumption.
    rewrite Hvc, Hvp. reflexivity.
  - intros m r Hm Hr.
    set (hm := invoke_n thunk m h) in *.
    assert (heap_le h hm) as Hlm by (apply invoke_n_extends; exact Hpres).
    apply view_mono.
    + apply invoke_n_mono; [exact Hpres|lia].
    + change (invoke_n thunk (S m) h) with (thunk hm).2.
      destruct (thunk hm) as [res h'] eqn:Hrun. cbn [fst snd] in *. subst res.
      eapply (entry_thunk_allocated clientEntries pagesEntries r hm h');
        [eapply allocated_mono; eassumption ..|exact Hrun].
Qed.

End StoreFacts.

Lemma sample_heap_allocated :
  Store.allocated sample_heap 1 /\ Store.allocated sample_heap 2.
Proof.
  split; (eexists; split; [reflexivity|]); intros k a H.
  - apply lookup_insert_Some in H as [[_ <-]|[_ H]]; [eexists; reflexivity|].
    apply lookup_singleton_Some in H as [_ <-]. eexists; reflexivity.
  - apply lookup_singleton_Some in H as [_ <-]. eexists; reflexivity.
Defined.

Lemma entry_thunk_reinvocable_witness :
  let thunk := Store.entry_thunk 1 2 in
  let hn := Store.invoke_n thunk 3 sample_heap in
  Store.outcome thunk hn = Store.outcome thunk sample_heap /\
  Store.heap_le sample_heap hn /\
  Store.view hn 1%positive = Store.view sample_heap 1%positive /\
  Store.view hn 2%positive = Store.view sample_heap 2%positive /\
  (forall m r, m < 3 ->
     (thunk (Store.invoke_n thunk m sample_heap)).1 = Ok r ->
     Store.view hn r = Store.view (Store.invoke_n thunk (S m) sample_heap) r).
Proof.
  apply (StoreFacts.entry_thunk_reinvocable sample_heap 1 2 3).
  - exact (proj1 sample_heap_allocated).
  - exact (proj2 sample_heap_allocated).
Defined.

Example sample_entry_thunk_outcome :
  Store.outcome (Store.entry_thunk 1 2) sample_heap
  = Ok (<["static/commons/main.js" := ["/app/node_modules/next/dist/client/next"]]>
        {["bundles/pages/index.js" := ["/app/pages/index.js"]]}).
Proof. vm_compute. reflexivity. Qed.

(** * Further properties *)

(** ** What the regular expressions of the externals policy accept *)

Module RegexSpec.

Import Regex.

Lemma match_here_lit (l : string) (p : list atom) (s r : string) :
  match_here (lit l ++ p) s = Some r <->
  exists s', s = l +:+ s' /\ match_here p s' = Some r.
Proof.
  revert s. induction l as [|a l IH]; intros s.
  - change (lit "" ++ p) with p. split.
    + intros H. exists s. split; [reflexivity|exact H].
    + intros (s' & -> & H). exact H.
  - change (lit (String a l) ++ p) with (Chr a :: (lit l ++ p)).
    cbn [match_here]. destruct s as [|b s].
    + split; [discriminate|]. intros (s' & Hs & _). discriminate Hs.
    + destruct (Ascii.eqb_spec b a) as [->|Hne].
      * rewrite IH. split.
        -- intros (s' & -> & H). exists s'. split; [reflexivity|exact H].
        -- intros (s' & Hs & H). exists s'. split; [|exact H].
           change (String a l +:+ s') with (String a (l +:+ s')) in Hs.
           congruence.
      * split; [discriminate|]. intros (s' & Hs & _).
        change (String a l +:+ s') with (String a (l +:+ s')) in Hs.
        congruence.
Qed.

Lemma match_here_sep (p : list atom) (s r : string) :
  match_here (sep :: p) s = Some r <->
  exists c s', is_sep c /\ s = String c s' /\ match_here p s' = Some r.
Proof.
  unfold sep. cbn [match_here]. destruct s as [|b s].
  - split; [discriminate|]. intros (c & s' & _ & Hs & _). discriminate Hs.
  - cbn [existsb]. rewrite orb_false_r.
    destruct (Ascii.eqb_spec b "/") as [->|H1].
    { cbn [orb]. split.
      - intros H. exists "/"%char, s. split; [left; reflexivity|]. eauto.
      - intros (c & s' & _ & [= <- <-] & H). exact H. }
    destruct (Ascii.eqb_spec b "\") as [->|H2].
    { cbn [orb]. split.
      - intros H. exists "\"%char, s. split; [right; reflexivity|]. eauto.
      - intros (c & s' & _ & [= <- <-] & H). exact H. }
    cbn [orb]. split; [discriminate|].
    intros (c & s' & [-> | ->] & [= Hb _] & _); congruence.
Qed.

Lemma match_here_eos (s r : string) :
  match_here [Eos] s = Some r <-> s = "" /\ r = "".
Proof.
  cbn [match_here]. destruct s as [|b s].
  - split; [intros [= <-]; auto | intros [_ ->]; reflexivity].
  - split; [discriminate | intros [[=] _]].
Qed.

Lemma match_here_js_ext (s r : string) :
  match_here re_js_ext s = Some r <-> s = ".js" /\ r = "".
Proof.
  unfold re_js_ext. rewrite match_here_lit. split.
  - intros (s' & -> & [-> ->]%match_here_eos). split; reflexivity.
  - intros [-> ->]. exists "". split; reflexivity.
Qed.

Lemma dotstar_unfold (p : list atom) (s : string) :
  match_here (DotStar :: p) s =
  match
    match s with
    | String a s' =>
        if line_terminator a then None else match_here (DotStar :: p) s'
    | EmptyString => None
    end
  with
  | Some rest => Some rest
  | None => match_here p s
  end.
Proof. destruct s; reflexivity. Qed.

Lemma match_here_dotstar_js (s r : string) :
  match_here (DotStar :: re_js_ext) s = Some r <->
  r = "" /\ exists mid, single_line mid = true /\ s = mid +:+ ".js".
Proof.
  split.
  - revert r. induction s as [|a s IH]; intros r; rewrite dotstar_unfold.
    + intros [[=] _]%match_here_js_ext.
    + destruct (line_terminator a) eqn:Ha.
      * intros [Hs ->]%match_here_js_ext. split; [reflexivity|].
        exists "". split; [reflexivity|exact Hs].
      * destruct (match_here (DotStar :: re_js_ext) s) as [rest|] eqn:Hin.
        -- intros [= <-]. destruct (IH rest eq_refl) as (-> & mid & Hm & ->).
           split; [reflexivity|]. exists (String a mid). split; [|reflexivity].
           cbn [single_line]. rewrite Ha, Hm. reflexivity.
        -- intros [Hs ->]%match_here_js_ext. split; [reflexivity|].
           exists "". split; [reflexivity|exact Hs].
  - intros (-> & mid & Hm & ->). induction mid as [|a mid IH].
    + reflexivity.
    + cbn [single_line] in Hm. apply andb_prop in Hm as [Ha Hm].
      apply negb_true_iff in Ha.
      change (String a mid +:+ ".js") with (String a (mid +:+ ".js")).
      rewrite dotstar_unfold, Ha, (IH Hm). reflexivity.
Qed.

Lemma exec_Some_inv (p : list atom) (s pre m post : string) :
  exec p s = Some (pre, m, post) ->
  exists s', s = pre +:+ s' /\ match_here p s' = Some post.
Proof.
  revert pre. induction s as [|a s IH]; intros pre; cbn [exec].
  - destruct (match_here p "") as [rest|] eqn:Hm; [|discriminate].
    intros [= <- _ <-]. exists "". split; [reflexivity|exact Hm].
  - destruct (match_here p (String a s)) as [rest|] eqn:Hm.
    + intros [= <- _ <-]. exists (String a s). split; [reflexivity|exact Hm].
    + destruct (exec p s) as [[[pre' m'] post']|]; [|discriminate].
      intros [= <- <- <-]. destruct (IH pre' eq_refl) as (s' & -> & H).
      exists s'. split; [reflexivity|exact H].
Qed.

Lemma test_true_iff (p : list atom) (s : string) :
  test p s = true <->
  exists pre s' r, s = pre +:+ s' /\ match_here p s' = Some r.
Proof.
  split.
  - unfold test. destruct (exec p s) as [[[pre m] post]|] eqn:He; [|discriminate].
    intros _. destruct (exec_Some_inv p s pre m post He) as (s' & -> & H).
    eauto.
  - intros (pre & s' & r & -> & H).
    eapply RegexFacts.test_after_prefix. exact H.
Qed.

Lemma test_default_pages (res : string) :
  test re_default_pages res = true <-> has_default_pages_segment res.
Proof.
  split; [|apply default_pages_segment_matches].
  intros (pre & s' & r & -> & H)%test_true_iff.
  unfold re_default_pages in H.
  apply match_here_lit in H as (s1 & -> & H).
  apply match_here_sep in H as (c1 & s2 & Hc1 & -> & H).
  apply match_here_lit in H as (s3 & -> & H).
  apply match_here_sep in H as (c2 & s4 & Hc2 & -> & H).
  apply match_here_lit in H as (s5 & -> & H).
  apply match_here_sep in H as (c3 & s6 & Hc3 & -> & H).
  rewrite <- (app_nil_r (lit "pages")) in H.
  apply match_here_lit in H as (s7 & -> & _).
  exists pre, s7, c1, c2, c3. repeat split; assumption.
Qed.

Lemma test_webpack (res : string) :
  test re_webpack res = true <-> has_webpack_segment res.
Proof.
  split.
  - intros (pre & s' & r & -> & H)%test_true_iff.
    unfold re_webpack in H.
    apply match_here_lit in H as (s1 & -> & H).
    apply match_here_sep in H as (c & s2 & Hc & -> & H).
    rewrite <- (app_nil_r (lit "webpack")) in H.
    apply match_here_lit in H as (s3 & -> & _).
    exists pre, s3, c. split; [assumption|reflexivity].
  - intros (pre & post & c & Hc & ->).
    apply RegexFacts.test_after_prefix with (rest := post).
    destruct Hc as [-> | ->]; reflexivity.
Qed.

Lemma test_node_modules_js (res : string) :
  test re_node_modules_js res = true <-> node_modules_script res.
Proof.
  split.
  - intros (pre & s' & r & -> & H)%test_true_iff.
    unfold re_node_modules_js in H.
    apply match_here_lit in H as (s1 & -> & H).
    apply match_here_sep in H as (c & s2 & Hc & -> & H).
    apply match_here_dotstar_js in H as (_ & mid & Hm & ->).
    exists pre, mid, c. repeat split; assumption.
  - intros (pre & mid & c & Hc & Hm & ->).
    apply RegexFacts.test_after_prefix with (rest := "").
    unfold re_node_modules_js. apply match_here_lit.
    eexists. split; [reflexivity|].
    apply match_here_sep. exists c. eexists. split; [exact Hc|].
    split; [reflexivity|].
    apply match_here_dotstar_js. split; [reflexivity|]. eauto.
Qed.

End RegexSpec.

(** ** Strings *)

Module StringFacts.

Lemma append_assoc (a b c : string) : (a +:+ b) +:+ c = a +:+ b +:+ c.
Proof.
  induction a as [|x a IH]; [reflexivity|].
  change (String x ((a +:+ b) +:+ c) = String x (a +:+ b +:+ c)).
  f_equal. exact IH.
Qed.

Lemma length_append (a b : string) :
  String.length (a +:+ b) = String.length a + String.length b.
Proof.
  induction a as [|x a IH]; [reflexivity|].
  change (S (String.length (a +:+ b)) = S (String.length a + String.length b)).
  f_equal. exact IH.
Qed.

Lemma substring_all (s : string) : substring 0 (String.length s) s = s.
Proof. induction s as [|x s IH]; [reflexivity|]. cbn. f_equal. exact IH. Qed.

Lemma substring_drop (a b : string) :
  substring (String.length a) (String.length b) (a +:+ b) = b.
Proof.
  induction a as [|x a IH]; [apply substring_all|].
  change (substring (String.length a) (String.length b) (a +:+ b) = b).
  exact IH.
Qed.

Lemma ends_with_append (a suf : string) : ends_with suf (a +:+ suf) = true.
Proof.
  unfold ends_with. rewrite length_append.
  replace (String.length a + String.length suf - String.length suf)
    with (String.length a) by lia.
  rewrite substring_drop. apply String.eqb_refl.
Qed.

Lemma append_inj_length (a b s t : string) :
  String.length a = String.length b ->
  a +:+ s = b +:+ t -> a = b /\ s = t.
Proof.
  revert b. induction a as [|x a IH]; intros [|y b] Hl H;
    try discriminate Hl.
  - split; [reflexivity|exact H].
  - change (String x (a +:+ s) = String y (b +:+ t)) in H.
    injection H as -> H. injection Hl as Hl.
    destruct (IH b Hl H) as [-> ->]. split; reflexivity.
Qed.

Lemma append_inj_r (a b suf : string) : a +:+ suf = b +:+ suf -> a = b.
Proof.
  intros H. apply (append_inj_length a b suf suf); [|exact H].
  apply (f_equal String.length) in H. rewrite !length_append in H. lia.
Qed.

End StringFacts.

(** ** The externals policy, in terms of paths *)

Section ExternalsSpec.

Variable resolve : Resolver.
Variable dir : string.

(** X1: the externals function externalizes a request exactly when the
    request resolves to a path that holds [node_modules/] followed by one
    line ending in [.js], and holds neither the default-pages segment nor
    [node_modules/webpack]; the external is then [commonjs] and the request
    as it was written.  In every other case it calls back with nothing. *)
Theorem external_characterised (context request : string) :
  (external resolve dir context request
   = Callback None (Some ("commonjs " +:+ request)) <->
   exists res,
     resolve request {| basedir := dir; preserveSymlinks := true |} = Resolved res /\
     ~ has_default_pages_segment res /\
     ~ has_webpack_segment res /\
     node_modules_script res) /\
  (external resolve dir context request = Callback None None \/
   external resolve dir context request
   = Callback None (Some ("commonjs " +:+ request))).
Proof.
  unfold external.
  destruct (resolve request {| basedir := dir; preserveSymlinks := true |})
    as [err|res] eqn:Hres.
  { split; [|left; reflexivity]. split; [discriminate|].
    intros (res & [=] & _). }
  pose proof (RegexSpec.test_default_pages res) as Hd.
  pose proof (RegexSpec.test_webpack res) as Hw.
  pose proof (RegexSpec.test_node_modules_js res) as Hn.
  destruct (Regex.test re_default_pages res).
  { split; [|left; reflexivity]. split; [discriminate|].
    intros (res' & [= <-] & Hnd & _). exfalso. apply Hnd, Hd. reflexivity. }
  destruct (Regex.test re_webpack res).
  { split; [|left; reflexivity]. split; [discriminate|].
    intros (res' & [= <-] & _ & Hnw & _). exfalso. apply Hnw, Hw. reflexivity. }
  destruct (Regex.test re_node_modules_js res).
  - split; [|right; reflexivity]. split; [|reflexivity].
    intros _. exists res. split; [reflexivity|].
    split; [intros H%Hd; discriminate|].
    split; [intros H%Hw; discriminate|]. apply Hn. reflexivity.
  - split; [|left; reflexivity]. split; [discriminate|].
    intros (res' & [= <-] & _ & _ & H%Hn). discriminate.
Qed.

(** X2: an externals function never hands an error to its callback,
    whatever the resolver answers; and a client configuration has no
    externals function at all. *)
Theorem externals_never_report_error :
  externalsConfig resolve dir false = [] /\
  forall (isServer : bool) (f : External) (context request : string),
    f ∈ externalsConfig resolve dir isServer ->
    cb_err (f context request) = None.
Proof.
  split; [reflexivity|].
  intros [] f context request Hf; [|inversion Hf].
  apply list_elem_of_singleton in Hf as ->. unfold external.
  destruct (resolve request {| basedir := dir; preserveSymlinks := true |})
    as [err|res]; [reflexivity|].
  destruct (Regex.test re_default_pages res); [reflexivity|].
  destruct (Regex.test re_webpack res); [reflexivity|].
  destruct (Regex.test re_node_modules_js res); reflexivity.
Qed.

(** X3: a request that resolves into [node_modules/webpack] is bundled;
    so is one that resolves into any package whose directory name merely
    starts with [webpack]. *)
Theorem webpack_prefix_never_external (context request res : string) :
  resolve request {| basedir := dir; preserveSymlinks := true |} = Resolved res ->
  has_webpack_segment res ->
  bundled (external resolve dir context request).
Proof.
  intros Hres Hw. apply RegexSpec.test_webpack in Hw.
  unfold external. rewrite Hres, Hw.
  destruct (Regex.test re_default_pages res); split; reflexivity.
Qed.

(** X4: only scripts of dependencies are externalized: a request that
    resolves to a path not ending in [.js], or to a path without
    [node_modules/], is bundled. *)
Theorem only_dependency_scripts_external (context request res : string) :
  resolve request {| basedir := dir; preserveSymlinks := true |} = Resolved res ->
  ends_with ".js" res = false \/
  (forall pre post c,
     is_sep c -> res <> pre +:+ "node_modules" +:+ String c post) ->
  bundled (external resolve dir context request).
Proof.
  intros Hres Hno. unfold external. rewrite Hres.
  destruct (Regex.test re_default_pages res); [split; reflexivity|].
  destruct (Regex.test re_webpack res); [split; reflexivity|].
  destruct (Regex.test re_node_modules_js res) eqn:Hjs; [|split; reflexivity].
  apply RegexSpec.test_node_modules_js in Hjs as (pre & mid & c & Hc & _ & Hs).
  exfalso. destruct Hno as [Hno | Hno].
  - rewrite Hs in Hno.
    change (String c (mid +:+ ".js")) with (String c mid +:+ ".js") in Hno.
    rewrite <- !StringFacts.append_assoc, StringFacts.ends_with_append in Hno.
    discriminate.
  - exact (Hno pre (mid +:+ ".js") c Hc Hs).
Qed.

End ExternalsSpec.

Lemma webpack_prefix_never_external_witness :
  bundled (external
             (fun _ _ => Resolved "/app/node_modules/webpack-merge/lib/index.js")
             "/app" "/app/pages" "webpack-merge") /\
  Regex.test re_node_modules_js "/app/node_modules/webpack-merge/lib/index.js"
  = true.
Proof.
  split; [|reflexivity].
  apply (webpack_prefix_never_external
           (fun _ _ => Resolved "/app/node_modules/webpack-merge/lib/index.js")
           "/app" "/app/pages" "webpack-merge"
           "/app/node_modules/webpack-merge/lib/index.js").
  - reflexivity.
  - exists "/app/", "-merge/lib/index.js", "/"%char.
    split; [left; reflexivity|reflexivity].
Defined.

Lemma externals_never_report_error_witness :
  cb_err (external sample_resolver "/app" "/app/pages" "lodash") = None /\
  cb_result (external sample_resolver "/app" "/app/pages" "lodash")
  = Some "commonjs lodash".
Proof.
  split; [|reflexivity].
  apply (proj2 (externals_never_report_error sample_resolver "/app") true).
  apply list_elem_of_singleton. reflexivity.
Defined.

Lemma only_dependency_scripts_external_witness :
  bundled (external
             (fun _ _ => Resolved "/app/node_modules/lodash/package.json")
             "/app" "/app/pages" "lodash/package.json") /\
  bundled (external
             (fun _ _ => Resolved "/app/components/header.js")
             "/app" "/app/pages" "../components/header").
Proof.
  split.
  - apply (only_dependency_scripts_external
             (fun _ _ => Resolved "/app/node_modules/lodash/package.json")
             "/app" "/app/pages" "lodash/package.json"
             "/app/node_modules/lodash/package.json").
    + reflexivity.
    + left. reflexivity.
  - apply (only_dependency_scripts_external
             (fun _ _ => Resolved "/app/components/header.js")
             "/app" "/app/pages" "../components/header"
             "/app/components/header.js").
    + reflexivity.
    + right. intros pre post c Hc Heq.
      assert (Regex.test re_node_modules "/app/components/header.js" = true)
        as Habs; [|discriminate Habs].
      rewrite Heq. apply RegexFacts.test_after_prefix with (rest := post).
      destruct Hc as [-> | ->]; reflexivity.
Defined.

(** ** More on the optimization policy and the output names *)

(** X5: whenever the optimization result has a commons group, a module has
    to be in at least two chunks to reach its threshold, whatever the
    number of pages. *)
Theorem commons_needs_two_chunks
  (dir : string) (dev isServer : bool) (n : nat) (q : Q) (k : Z) :
  commons_threshold (optimizationConfig dir dev isServer n) = Some q ->
  (q <= inject_Z k)%Q ->
  (2 <= k)%Z.
Proof.
  destruct isServer; [discriminate|]. destruct dev; [discriminate|].
  rewrite commons_threshold_client_production. intros [= <-].
  destruct (2 <? n)%nat eqn:Hn.
  - apply Nat.ltb_lt in Hn. unfold Qle. cbn. lia.
  - unfold Qle. cbn. lia.
Qed.

Lemma commons_needs_two_chunks_witness : (2 <= 2)%Z.
Proof.
  apply (commons_needs_two_chunks "/app" false false 3 (3 # 2)%Q 2).
  - reflexivity.
  - unfold Qle. cbn. lia.
Defined.

(** X6: the threshold of the commons group is below 2 for exactly one page
    count, three pages, where it is 3/2. *)
Theorem commons_threshold_below_two (dir : string) (n : nat) (q : Q) :
  commons_threshold (optimizationConfig dir false false n) = Some q ->
  ((q < 2)%Q <-> n = 3%nat).
Proof.
  rewrite commons_threshold_client_production. intros [= <-].
  destruct (2 <? n)%nat eqn:Hn.
  - apply Nat.ltb_lt in Hn. unfold Qlt. cbn. lia.
  - apply Nat.ltb_ge in Hn. unfold Qlt. cbn. lia.
Qed.

Lemma commons_threshold_below_two_witness :
  ((3 # 2 < 2)%Q <-> 3%nat = 3%nat) /\ ((4 # 2 < 2)%Q <-> 4%nat = 3%nat).
Proof.
  split.
  - apply (commons_threshold_below_two "/app" 3). reflexivity.
  - apply (commons_threshold_below_two "/app" 4). reflexivity.
Defined.

(** X7: the two chunks a client build creates outside the pages, the
    bootstrap entry of the client entries and the runtime chunk the
    optimization names, are the ones [output.filename] gives a hashed name
    in production. *)
Theorem client_infrastructure_chunks_hashed
  (path_join : list string -> string) (root dir : string)
  (dev : bool) (n : nat) (h : string) :
  Regex.dollar_free h = true ->
  exists runtime,
    runtimeChunk (optimizationConfig dir dev false n) = Some runtime /\
    filename false {| name := runtime; renderedHash := h |}
    = "static/commons/runtime-" +:+ h +:+ ".js" /\
    is_Some (clientEntries path_join root dev false !! "static/commons/main.js") /\
    filename false {| name := "static/commons/main.js"; renderedHash := h |}
    = "static/commons/main-" +:+ h +:+ ".js".
Proof.
  intros Hh. exists "static/commons/runtime.js".
  split; [destruct dev; reflexivity|].
  split; [apply (replace_js_ext_hash "static/commons/runtime"); [reflexivity|exact Hh]|].
  split.
  - unfold clientEntries. cbn [negb].
    rewrite lookup_insert_ne by discriminate. rewrite lookup_insert_eq. eauto.
  - apply (replace_js_ext_hash "static/commons/main"); [reflexivity|exact Hh].
Qed.

Lemma client_infrastructure_chunks_hashed_witness :
  exists runtime,
    runtimeChunk (optimizationConfig "/app" false false 7) = Some runtime /\
    filename false {| name := runtime; renderedHash := "0a1b2c" |}
    = "static/commons/runtime-0a1b2c.js" /\
    is_Some (clientEntries (String.concat "/") "/app/node_modules/next/dist"
               false false !! "static/commons/main.js") /\
    filename false {| name := "static/commons/main.js"; renderedHash := "0a1b2c" |}
    = "static/commons/main-0a1b2c.js".
Proof.
  apply (client_infrastructure_chunks_hashed (String.concat "/")
           "/app/node_modules/next/dist" "/app" false 7 "0a1b2c").
  reflexivity.
Defined.

Lemma filename_main_hashed (h : string) :
  Regex.dollar_free h = true ->
  filename false {| name := "static/commons/main.js"; renderedHash := h |}
  = "static/commons/main" +:+ "-" +:+ h +:+ ".js".
Proof.
  intros Hh. apply (replace_js_ext_hash "static/commons/main");
    [reflexivity|exact Hh].
Qed.

Lemma filename_runtime_hashed (h : string) :
  Regex.dollar_free h = true ->
  filename false {| name := "static/commons/runtime.js"; renderedHash := h |}
  = "static/commons/runtime" +:+ "-" +:+ h +:+ ".js".
Proof.
  intros Hh. apply (replace_js_ext_hash "static/commons/runtime");
    [reflexivity|exact Hh].
Qed.

(** X8: in production two different infrastructure chunks, different by
    name or by hash, never get the same file name (hashes without [$]). *)
Theorem hashed_filename_injective (c1 c2 : Chunk) :
  infrastructure_chunk (name c1) ->
  infrastructure_chunk (name c2) ->
  Regex.dollar_free (renderedHash c1) = true ->
  Regex.dollar_free (renderedHash c2) = true ->
  c1 <> c2 ->
  filename false c1 <> filename false c2.
Proof.
  destruct c1 as [n1 h1], c2 as [n2 h2]. cbn [name renderedHash].
  intros Hn1 Hn2 H1 H2 Hne.
  destruct Hn1 as [-> | ->], Hn2 as [-> | ->];
    rewrite ?(filename_main_hashed h1 H1), ?(filename_main_hashed h2 H2),
            ?(filename_runtime_hashed h1 H1), ?(filename_runtime_hashed h2 H2);
    intros H.
  - apply String.app_inj in H. apply String.app_inj in H.
    apply StringFacts.append_inj_r in H. subst. apply Hne. reflexivity.
  - compute in H. discriminate H.
  - compute in H. discriminate H.
  - apply String.app_inj in H. apply String.app_inj in H.
    apply StringFacts.append_inj_r in H. subst. apply Hne. reflexivity.
Qed.

Lemma hashed_filename_injective_witness :
  filename false {| name := "static/commons/main.js"; renderedHash := "0a1b2c" |}
  <> filename false {| name := "static/commons/main.js"; renderedHash := "0a1b2d" |} /\
  filename false {| name := "static/commons/main.js"; renderedHash := "0a1b2c" |}
  <> filename false {| name := "static/commons/runtime.js"; renderedHash := "0a1b2c" |}.
Proof.
  split; apply hashed_filename_injective;
    try (left; reflexivity); try (right; reflexivity);
    try reflexivity; discriminate.
Defined.

(** ** More on the entry mapping *)

(** X9: a mapping that the rewritten entry thunk returns never has the key
    [main.js], whatever thunk it wraps. *)
Theorem final_entry_never_main (orig : thunk) (m' : entries) :
  closing_entry orig tt = Ok m' -> m' !! "main.js" = None.
Proof.
  intros H. destruct (orig tt) as [m|e] eqn:Ho;
    [|rewrite (closing_entry_failure orig e Ho) in H; discriminate].
  destruct (m !! "main.js") as [main|] eqn:Hm.
  - destruct (m !! "static/commons/main.js") as [rest|] eqn:Hc.
    + rewrite (closing_entry_present orig m main rest Ho Hm Hc) in H.
      injection H as <-. apply lookup_delete_eq.
    + rewrite (closing_entry_no_commons orig m main Ho Hm Hc) in H. discriminate.
  - rewrite (closing_entry_absent orig m Ho Hm) in H. injection H as <-. exact Hm.
Qed.

Lemma final_entry_never_main_witness :
  (<["static/commons/main.js" := ["./polyfills.js"; "next"]]>
   {["bundles/pages/index.js" := ["./pages/index.js"]]} : entries)
  !! "main.js" = None.
Proof.
  apply (final_entry_never_main
           (fun _ => Ok (<["main.js" := ["./polyfills.js"]]>
                         (<["static/commons/main.js" := ["next"]]>
                          {["bundles/pages/index.js" := ["./pages/index.js"]]})))).
  reflexivity.
Defined.

(** X10: the closing rewrite leaves every entry other than [main.js] and
    [static/commons/main.js] as the underlying thunk returned it. *)
Theorem closing_entry_other_keys (orig : thunk) (m m' : entries) (k : string) :
  orig tt = Ok m ->
  closing_entry orig tt = Ok m' ->
  k <> "main.js" ->
  k <> "static/commons/main.js" ->
  m' !! k = m !! k.
Proof.
  intros Ho H Hk Hk'.
  destruct (m !! "main.js") as [main|] eqn:Hm.
  - destruct (m !! "static/commons/main.js") as [rest|] eqn:Hc.
    + rewrite (closing_entry_present orig m main rest Ho Hm Hc) in H.
      injection H as <-.
      rewrite lookup_delete_ne, lookup_insert_ne by congruence. reflexivity.
    + rewrite (closing_entry_no_commons orig m main Ho Hm Hc) in H. discriminate.
  - rewrite (closing_entry_absent orig m Ho Hm) in H. injection H as <-.
    reflexivity.
Qed.

Lemma closing_entry_other_keys_witness :
  (<["static/commons/main.js" := ["./polyfills.js"; "next"]]>
   {["bundles/pages/index.js" := ["./pages/index.js"]]} : entries)
  !! "bundles/pages/index.js"
  = (<["main.js" := ["./polyfills.js"]]>
     (<["static/commons/main.js" := ["next"]]>
      {["bundles/pages/index.js" := ["./pages/index.js"]]}) : entries)
    !! "bundles/pages/index.js".
Proof.
  apply (closing_entry_other_keys
           (fun _ => Ok (<["main.js" := ["./polyfills.js"]]>
                         (<["static/commons/main.js" := ["next"]]>
                          {["bundles/pages/index.js" := ["./pages/index.js"]]})))).
  - reflexivity.
  - reflexivity.
  - discriminate.
  - discriminate.
Defined.

(** X11: the closing rewrite is idempotent: wrapping a thunk twice gives
    the outcome of wrapping it once, a mapping or a failure. *)
Theorem closing_entry_idempotent (orig : thunk) :
  closing_entry (closing_entry orig) tt = closing_entry orig tt.
Proof.
  destruct (orig tt) as [m|e] eqn:Ho.
  - destruct (m !! "main.js") as [main|] eqn:Hm.
    + destruct (m !! "static/commons/main.js") as [rest|] eqn:Hc.
      * pose proof (closing_entry_present orig m main rest Ho Hm Hc) as H.
        rewrite H. apply closing_entry_absent; [exact H|].
        apply lookup_delete_eq.
      * pose proof (closing_entry_no_commons orig m main Ho Hm Hc) as H.
        rewrite H. apply closing_entry_failure. exact H.
    + pose proof (closing_entry_absent orig m Ho Hm) as H.
      rewrite H. apply closing_entry_absent; assumption.
  - pose proof (closing_entry_failure orig e Ho) as H.
    rewrite H. apply closing_entry_failure. exact H.
Qed.

Section EntryFacts.

Variable resolve : Resolver.
Variable getPages : string -> GetPagesOpts -> result entries.
Variable path_join : list string -> string.
Variable NEXT_PROJECT_ROOT_DIST : string.
Variable DEFAULT_PAGES_DIR : string.

(** X12: the final entry mapping of a server build without a hook is the
    page entries themselves, when no page entry is called [main.js]. *)
Theorem server_entries_are_page_entries
  (dir : string) (ctx : BaseConfigContext) (pages : entries) :
  isServer ctx = true ->
  getPages dir (pagesOptions DEFAULT_PAGES_DIR ctx) = Ok pages ->
  pages !! "main.js" = None ->
  final_entries
    (getBaseWebpackConfig resolve getPages path_join NEXT_PROJECT_ROOT_DIST
       DEFAULT_PAGES_DIR dir ctx None)
  = Ok pages.
Proof.
  intros Hs Hp Hm.
  rewrite (getBaseWebpackConfig_no_hook resolve getPages path_join
             NEXT_PROJECT_ROOT_DIST DEFAULT_PAGES_DIR dir ctx pages Hp).
  unfold final_entries, rbind, set_entry. cbn [entry]. rewrite Hs.
  assert (base_entry path_join NEXT_PROJECT_ROOT_DIST (dev ctx) true pages tt
          = Ok pages) as Hb.
  { unfold base_entry, clientEntries. cbn [negb].
    rewrite (right_id_L ∅ (∪)). reflexivity. }
  apply closing_entry_absent; assumption.
Qed.

(** X13: the final entry mapping of a client build without a hook is the
    page entries with one more entry, [static/commons/main.js]: the modules
    of a page entry called [main.js], if there is one, followed by those of
    a page entry called [static/commons/main.js] or else by the client
    bootstrap module. *)
Theorem client_entries_are_pages_and_bootstrap
  (dir : string) (ctx : BaseConfigContext) (pages : entries) :
  isServer ctx = false ->
  getPages dir (pagesOptions DEFAULT_PAGES_DIR ctx) = Ok pages ->
  final_entries
    (getBaseWebpackConfig resolve getPages path_join NEXT_PROJECT_ROOT_DIST
       DEFAULT_PAGES_DIR dir ctx None)
  = Ok (delete "main.js"
          (<["static/commons/main.js" :=
               default [] (pages !! "main.js") ++
               default
                 (List.filter truthy
                    [path_join [NEXT_PROJECT_ROOT_DIST; "client";
                                if dev ctx then "next-dev" else "next"]])
                 (pages !! "static/commons/main.js")]> pages)).
Proof.
  intros Hs Hp.
  rewrite (getBaseWebpackConfig_no_hook resolve getPages path_join
             NEXT_PROJECT_ROOT_DIST DEFAULT_PAGES_DIR dir ctx pages Hp).
  unfold final_entries, rbind, set_entry. cbn [entry]. rewrite Hs.
  set (boot := List.filter truthy
                 [path_join [NEXT_PROJECT_ROOT_DIST; "client";
                             if dev ctx then "next-dev" else "next"]]).
  set (client := clientEntries path_join NEXT_PROJECT_ROOT_DIST (dev ctx) false).
  assert (client !! "main.js" = Some []) as Hcm by apply lookup_insert_eq.
  assert (client !! "static/commons/main.js" = Some boot) as Hcc.
  { unfold client, clientEntries. cbn [negb].
    rewrite lookup_insert_ne by discriminate. apply lookup_insert_eq. }
  assert (forall k, k <> "main.js" -> k <> "static/commons/main.js" ->
                    client !! k = None) as Hck.
  { intros k H1 H2. unfold client, clientEntries. cbn [negb].
    rewrite !lookup_insert_ne by congruence. apply lookup_empty. }
  rewrite (closing_entry_present _ (pages ∪ client)
             (default [] (pages !! "main.js"))
             (default boot (pages !! "static/commons/main.js")) eq_refl).
  - f_equal. apply map_eq. intros k.
    destruct (decide (k = "main.js")) as [->|H1].
    { rewrite !lookup_delete_eq. reflexivity. }
    rewrite !lookup_delete_ne by congruence.
    destruct (decide (k = "static/commons/main.js")) as [->|H2].
    { rewrite !lookup_insert_eq. reflexivity. }
    rewrite !lookup_insert_ne by congruence.
    rewrite lookup_union, (Hck k H1 H2). apply (right_id_L None _).
  - rewrite lookup_union, Hcm. destruct (pages !! "main.js"); reflexivity.
  - rewrite lookup_union, Hcc.
    destruct (pages !! "static/commons/main.js"); reflexivity.
Qed.

(** X14: a failure of the page discovery is the failure of the assembler,
    with or without a hook; the hook is not consulted. *)
Theorem page_discovery_failure_propagates
  (dir : string) (ctx : BaseConfigContext) (webpack : option Hook) (e : exn) :
  getPages dir (pagesOptions DEFAULT_PAGES_DIR ctx) = Throw e ->
  getBaseWebpackConfig resolve getPages path_join NEXT_PROJECT_ROOT_DIST
    DEFAULT_PAGES_DIR dir ctx webpack = Throw e.
Proof. intros Hp. unfold getBaseWebpackConfig. rewrite Hp. reflexivity. Qed.

End EntryFacts.

Lemma server_entries_are_page_entries_witness :
  final_entries (sample_build true true None)
  = Ok (<["bundles/pages/index.js" := ["/app/pages/index.js"]]>
        {["bundles/pages/_error.js" := ["/app/pages/_error.js"]]}).
Proof.
  apply (server_entries_are_page_entries sample_resolver sample_getPages
           (String.concat "/") "/app/node_modules/next/dist"
           "/app/node_modules/next/dist/pages" "/app" (sample_context true true));
    reflexivity.
Defined.

Lemma client_entries_are_pages_and_bootstrap_witness :
  final_entries (sample_build true false None)
  = Ok (<["static/commons/main.js" :=
            ["/app/node_modules/next/dist/client/next-dev"]]>
        (<["bundles/pages/index.js" := ["/app/pages/index.js"]]>
         {["bundles/pages/_error.js" := ["/app/pages/_error.js"]]})).
Proof.
  unfold sample_build.
  rewrite (client_entries_are_pages_and_bootstrap sample_resolver sample_getPages
             (String.concat "/") "/app/node_modules/next/dist"
             "/app/node_modules/next/dist/pages" "/app" (sample_context true false)
             (<["bundles/pages/index.js" := ["/app/pages/index.js"]]>
              {["bundles/pages/_error.js" := ["/app/pages/_error.js"]]})
             eq_refl eq_refl).
  reflexivity.
Defined.

Lemma page_discovery_failure_propagates_witness :
  getBaseWebpackConfig sample_resolver
    (fun _ _ => Throw (Thrown "ENOENT: no such file or directory"))
    (String.concat "/") "/app/node_modules/next/dist"
    "/app/node_modules/next/dist/pages" "/app" (sample_context false false)
    (Some prepend_hook)
  = Throw (Thrown "ENOENT: no such file or directory").
Proof.
  apply (page_discovery_failure_propagates sample_resolver
           (fun _ _ => Throw (Thrown "ENOENT: no such file or directory"))).
  reflexivity.
Defined.

(** ** More on the entry thunk over a store *)

Module StoreSharing.

Import Store StoreFacts.

(** X15: whatever thunk it wraps, a hook's included, the closing pass
    writes to nothing that was in the store when the wrapped thunk
    returned: it only allocates. *)
Theorem closing_pass_only_allocates (orig : M oref) (h : heap) :
  heap_le (orig h).2 (closing_entry orig h).2.
Proof.
  rewrite closing_entry_run. destruct (orig h) as [[original|e] h1]; cbn [snd].
  - apply closing_run_le.
  - apply heap_le_refl.
Qed.

(** X16: the mapping the entry thunk returns is a new object, but its
    arrays are the arrays of the page and client entries themselves: only
    the array under [static/commons/main.js] is new, and only when there
    was a [main.js] to merge. *)
Theorem entry_thunk_shares_arrays
  (clientEntries pagesEntries r : oref) (h h' : heap) :
  entry_thunk clientEntries pagesEntries h = (Ok r, h') ->
  let merged := default ∅ (objs h !! pagesEntries)
                ∪ default ∅ (objs h !! clientEntries) in
  objs h !! r = None /\
  exists props,
    objs h' !! r = Some props /\
    match merged !! "main.js" with
    | None => props = merged
    | Some _ =>
        exists a, arrs h !! a = None /\
          props = delete "main.js" (<["static/commons/main.js" := a]> merged)
    end.
Proof.
  intros Hrun merged.
  rewrite entry_thunk_run, base_entry_run in Hrun. cbn [snd] in Hrun.
  fold merged in Hrun.
  set (h1 := Heap (<[fresh (dom (objs h)) := merged]> (objs h)) (arrs h)) in *.
  assert (objs h1 !! fresh (dom (objs h)) = Some merged) as He0
    by apply lookup_insert_eq.
  assert (objs h !! fresh (dom (objs h1)) = None) as Hfresh.
  { eapply lookup_weaken_None; [apply fresh_none|].
    apply insert_subseteq, fresh_none. }
  unfold closing_run in Hrun. rewrite He0 in Hrun. cbn [default from_option id] in Hrun.
  destruct (merged !! "main.js") as [m|] eqn:Hm.
  - destruct (arrs h1 !! m) as [ms|]; [|discriminate].
    destruct (merged !! "static/commons/main.js" ≫= (fun c => arrs h1 !! c))
      as [cs|]; [|discriminate].
    injection Hrun as <- <-. split; [exact Hfresh|].
    eexists. split; [cbn [objs]; apply lookup_insert_eq|].
    exists (fresh (dom (arrs h1))). split; [apply fresh_none|reflexivity].
  - injection Hrun as <- <-. split; [exact Hfresh|].
    exists merged. split; [cbn [objs]; apply lookup_insert_eq|reflexivity].
Qed.

End StoreSharing.

Lemma entry_thunk_shares_arrays_witness :
  exists r h' props,
    Store.entry_thunk 1 2 sample_heap = (Ok r, h') /\
    Store.objs sample_heap !! r = None /\
    Store.objs h' !! r = Some props /\
    props !! "bundles/pages/index.js" = Some 3%positive /\
    exists a, props !! "static/commons/main.js" = Some a /\
              Store.arrs sample_heap !! a = None.
Proof.
  destruct (Store.entry_thunk 1 2 sample_heap) as [[r|e] h'] eqn:Hrun;
    [|vm_compute in Hrun; discriminate Hrun].
  destruct (StoreSharing.entry_thunk_shares_arrays 1 2 r sample_heap h' Hrun)
    as (Hnew & props & Hprops & a & Ha & ->).
  do 3 eexists. split; [reflexivity|]. split; [exact Hnew|].
  split; [exact Hprops|]. split.
  - rewrite lookup_delete_ne, lookup_insert_ne by discriminate. reflexivity.
  - exists a. split; [|exact Ha].
    rewrite lookup_delete_ne by discriminate. apply lookup_insert_eq.
Defined.

(** ** NODE_PATH and the module directories *)

Module NodePath.

Lemma split_char_free (c : ascii) (s seg : string) :
  In seg (split_char c s) -> free_of c seg = true.
Proof.
  revert seg. induction s as [|a s IH]; intros seg; cbn [split_char].
  - intros [<- | []]. reflexivity.
  - destruct (Ascii.eqb a c) eqn:Hac.
    + intros [<- | Hin]; [reflexivity|apply IH, Hin].
    + destruct (split_char c s) as [|seg0 segs].
      * intros [<- | []]. cbn [free_of]. rewrite Hac. reflexivity.
      * intros [<- | Hin].
        -- cbn [free_of]. rewrite Hac. apply IH. left. reflexivity.
        -- apply IH. right. exact Hin.
Qed.

Lemma split_char_whole (c : ascii) (p : string) :
  free_of c p = true -> split_char c p = [p].
Proof.
  induction p as [|a p IH]; cbn [free_of split_char]; [reflexivity|].
  intros [Ha Hp]%andb_prop. apply negb_true_iff in Ha.
  rewrite Ha, (IH Hp). reflexivity.
Qed.

Lemma split_char_app (c : ascii) (p s : string) :
  free_of c p = true ->
  split_char c (p +:+ String c s) = p :: split_char c s.
Proof.
  induction p as [|a p IH]; cbn [free_of].
  - intros _. change ("" +:+ String c s) with (String c s).
    cbn [split_char]. rewrite Ascii.eqb_refl. reflexivity.
  - intros [Ha Hp]%andb_prop. apply negb_true_iff in Ha.
    change (String a p +:+ String c s) with (String a (p +:+ String c s)).
    cbn [split_char]. rewrite Ha, (IH Hp). reflexivity.
Qed.

Lemma split_char_concat (c : ascii) (l : list string) :
  l <> [] ->
  Forall (fun p => free_of c p = true) l ->
  split_char c (String.concat (String c "") l) = l.
Proof.
  induction l as [|x l IH]; [congruence|]. intros _ Hall.
  apply Forall_cons in Hall as [Hx Hl].
  destruct l as [|y l].
  - cbn [String.concat]. apply split_char_whole, Hx.
  - change (String.concat (String c "") (x :: y :: l))
      with (x +:+ String c (String.concat (String c "") (y :: l))).
    rewrite (split_char_app c x _ Hx). f_equal. apply IH; [discriminate|exact Hl].
Qed.

Lemma or_empty (s : string) : (if truthy s then s else "") = s.
Proof. destruct s; reflexivity. Qed.

Lemma filter_truthy_id (l : list string) :
  Forall (fun p => p <> "") l -> List.filter truthy l = l.
Proof.
  induction 1 as [|x l Hx _ IH]; [reflexivity|].
  cbn [List.filter]. destruct x; [congruence|]. cbn. f_equal. exact IH.
Qed.

(** X17: no path taken from NODE_PATH is empty, and none holds the
    separator of the platform. *)
Theorem nodePathList_clean
  (NODE_PATH : option string) (platform p : string) :
  In p (nodePathList NODE_PATH platform) ->
  p <> "" /\ free_of (path_separator platform) p = true.
Proof.
  unfold nodePathList. intros [Hin Ht]%filter_In. split.
  - intros ->. discriminate Ht.
  - eapply split_char_free. exact Hin.
Qed.

(** X18: without NODE_PATH there are no extra paths; and a NODE_PATH made
    by joining non-empty paths with the separator of the platform is read
    back as these paths, in their order. *)
Theorem nodePathList_join (platform : string) :
  nodePathList None platform = [] /\
  forall l : list string,
    Forall (fun p => p <> "" /\ free_of (path_separator platform) p = true) l ->
    nodePathList
      (Some (String.concat (String (path_separator platform) "") l)) platform
    = l.
Proof.
  split; [reflexivity|]. intros l Hall. unfold nodePathList.
  rewrite or_empty. destruct l as [|x l]; [reflexivity|].
  rewrite split_char_concat.
  - apply filter_truthy_id. eapply Forall_impl; [exact Hall|]. intros p [H _]. exact H.
  - discriminate.
  - eapply Forall_impl; [exact Hall|]. intros p [_ H]. exact H.
Qed.

(** X19: every directory searched for modules is searched for loaders
    too, in the same order; the paths of NODE_PATH come last in both. *)
Theorem module_directories_shared
  (path_join : list string -> string) (node_modules dirname : string)
  (nodePaths : list string) :
  resolveModules node_modules nodePaths
    `sublist_of` resolveLoaderModules path_join node_modules dirname nodePaths /\
  nodePaths `suffix_of` resolveModules node_modules nodePaths /\
  nodePaths `suffix_of` resolveLoaderModules path_join node_modules dirname nodePaths.
Proof.
  unfold resolveModules, resolveLoaderModules. split; [|split].
  - cbn [app]. do 2 apply sublist_skip. apply sublist_cons. reflexivity.
  - apply suffix_app_r. reflexivity.
  - apply suffix_app_r. reflexivity.
Qed.

End NodePath.

Lemma nodePathList_clean_witness :
  "/opt/lib" <> "" /\ free_of ":" "/opt/lib" = true.
Proof.
  apply (NodePath.nodePathList_clean (Some "/usr/lib::/opt/lib:") "linux").
  right. left. reflexivity.
Defined.

Lemma nodePathList_join_witness :
  nodePathList (Some "C:\libs;D:\shared\node") "win32"
  = ["C:\libs"; "D:\shared\node"].
Proof.
  apply (proj2 (NodePath.nodePathList_join "win32") ["C:\libs"; "D:\shared\node"]).
  repeat constructor; discriminate.
Defined.

(** ** The plugins *)

Section PluginFacts.

Variable path_join : list string -> string.
Variable SERVER_DIRECTORY : string.
Variable REACT_LOADABLE_MANIFEST : string.

Local Abbreviation plugins_of dir ctx :=
  (plugins path_join SERVER_DIRECTORY REACT_LOADABLE_MANIFEST dir ctx).

Local Ltac by_build ctx :=
  destruct ctx as [[] [] ? ?]; cbn [dev isServer];
  unfold plugins; cbn [dev isServer gate omap list_omap negb andb id In].

(** X20: every configuration has exactly one of the two manifest writers:
    the pages manifest plugin on the server, the build manifest plugin on
    the client; and hot module replacement is there exactly for a
    development client. *)
Theorem manifest_plugins_by_target (dir : string) (ctx : BaseConfigContext) :
  (In PagesManifestPlugin (plugins_of dir ctx) <-> isServer ctx = true) /\
  (In BuildManifestPlugin (plugins_of dir ctx) <-> isServer ctx = false) /\
  (In HotModuleReplacementPlugin (plugins_of dir ctx) <->
   dev ctx = true /\ isServer ctx = false).
Proof. by_build ctx; intuition (discriminate || congruence). Qed.

(** X21: a configuration holds a development-only plugin exactly when it
    is built for development. *)
Theorem dev_plugins_only_in_dev (dir : string) (ctx : BaseConfigContext) :
  (exists p, In p (plugins_of dir ctx) /\ dev_only p = true) <-> dev ctx = true.
Proof.
  split.
  - intros (p & Hin & Hd). revert Hin.
    by_build ctx; try reflexivity;
      intros Hin; exfalso;
      repeat (destruct Hin as [<- | Hin]; [discriminate Hd|]); exact Hin.
  - intros Hdev. exists NoEmitOnErrorsPlugin. split; [|reflexivity].
    revert Hdev. by_build ctx; intros Hdev; try discriminate Hdev; tauto.
Qed.

(** X22: no plugin is listed twice, and the chunk names plugin is the
    first of the list in every configuration. *)
Theorem plugins_distinct (dir : string) (ctx : BaseConfigContext) :
  List.NoDup (plugins_of dir ctx) /\
  head (plugins_of dir ctx) = Some ChunkNamesPlugin.
Proof.
  split; [|by_build ctx; reflexivity].
  by_build ctx;
    repeat (apply List.NoDup_cons;
            [cbn [In]; intuition discriminate|]);
    apply List.NoDup_nil.
Qed.

(** X23: the value that [DefinePlugin] substitutes for
    [process.env.NODE_ENV] is the mode of the configuration, between double
    quotes. *)
Theorem node_env_is_mode
  (resolve : Resolver) (root dir : string) (ctx : BaseConfigContext)
  (pages : entries) :
  In (DefinePlugin
        [("process.env.NODE_ENV",
          String dquote
            (mode (baseConfig resolve path_join root dir ctx pages)
             +:+ String dquote ""))])
     (plugins_of dir ctx).
Proof. by_build ctx; tauto. Qed.

End PluginFacts.

(** ** The final entry thunk over any wrapped thunk *)

Module StoreWrapped.

Local Abbreviation value_closing_entry := closing_entry.

Import Store StoreFacts StoreHook.

Lemma closing_entry_outcome_of (orig : M oref) (h : heap) :
  (forall r h1, orig h = (Ok r, h1) -> allocated h1 r) ->
  outcome (closing_entry orig) h
  = value_closing_entry (fun _ => outcome orig h) tt.
Proof.
  intros Hal. unfold outcome. rewrite closing_entry_run.
  destruct (orig h) as [[original|e] h1].
  - apply closing_run_refines. apply Hal. reflexivity.
  - reflexivity.
Qed.

Lemma closing_entry_result_allocated (orig : M oref) (h h' : heap) (r : oref) :
  (forall r0 h1, orig h = (Ok r0, h1) -> allocated h1 r0) ->
  closing_entry orig h = (Ok r, h') ->
  allocated h' r.
Proof.
  intros Hal. rewrite closing_entry_run.
  destruct (orig h) as [[original|e] h1]; [|discriminate].
  apply closing_run_allocated. apply Hal. reflexivity.
Qed.

Lemma base_entry_well_behaved (c p : oref) (h : heap) :
  allocated h c -> allocated h p -> well_behaved (base_entry c p) h.
Proof.
  intros Hc Hp. split; [apply base_entry_preserving|].
  assert (forall h', heap_le h h' ->
            outcome (base_entry c p) h' = Ok (view h p ∪ view h c)) as Hout.
  { intros h' Hle.
    destruct (base_entry_allocated c p h'
                (allocated_mono h h' c Hle Hc) (allocated_mono h h' p Hle Hp))
      as [_ Hv].
    unfold outcome. rewrite base_entry_run in *. cbn [observe snd] in *.
    rewrite Hv, (view_mono h h' p Hle Hp), (view_mono h h' c Hle Hc).
    reflexivity. }
  intros h' Hle. split.
  - rewrite (Hout h' Hle), (Hout h (heap_le_refl h)). reflexivity.
  - intros r h'' Hrun.
    destruct (base_entry_allocated c p h'
                (allocated_mono h h' c Hle Hc) (allocated_mono h h' p Hle Hp))
      as [Ha _].
    rewrite Hrun in Ha. rewrite base_entry_run in Hrun.
    injection Hrun as <- _. exact Ha.
Qed.

Lemma closing_entry_reinvocable (orig : M oref) (h : heap) :
  well_behaved orig h -> reinvocable (closing_entry orig) h.
Proof.
  intros [Hpres Hwb] n hn.
  pose proof (closing_entry_preserving orig Hpres) as Hcp.
  assert (forall k, heap_le h (invoke_n (closing_entry orig) k h)) as Hext
    by (intros k; apply invoke_n_extends; exact Hcp).
  split; [|split; [apply Hext|split]].
  - rewrite (closing_entry_outcome_of orig hn)
      by (apply (Hwb hn (Hext n))).
    rewrite (closing_entry_outcome_of orig h)
      by (apply (Hwb h (heap_le_refl h))).
    rewrite (proj1 (Hwb hn (Hext n))). reflexivity.
  - intros r Hr. apply view_mono; [apply Hext|exact Hr].
  - intros m r Hm Hr.
    set (hm := invoke_n (closing_entry orig) m h) in *.
    apply view_mono.
    + apply invoke_n_mono; [exact Hcp|lia].
    + change (invoke_n (closing_entry orig) (S m) h)
        with (closing_entry orig hm).2.
      destruct (closing_entry orig hm) as [res h'] eqn:Hrun.
      cbn [fst snd] in *. subst res.
      eapply closing_entry_result_allocated; [|exact Hrun].
      apply (Hwb hm (Hext m)).
Qed.

(** C5, as the code has it: the final entry thunk can be invoked any
    number of times, with equal outcomes and without a write to anything
    that was in the store (client entries, page entries, mappings returned
    before), whenever the thunk it wraps only allocates and yields the same
    mapping on every later store; the assembler's own thunk, the one
    wrapped in a build without a hook, is such a thunk; and whatever thunk
    is wrapped, the closing pass itself only allocates. *)
Theorem final_entry_thunk_reinvocable :
  (forall (orig : M oref) (h : heap),
     well_behaved orig h -> reinvocable (closing_entry orig) h) /\
  (forall (clientEntries pagesEntries : oref) (h : heap),
     allocated h clientEntries ->
     allocated h pagesEntries ->
     well_behaved (base_entry clientEntries pagesEntries) h /\
     reinvocable (closing_entry (base_entry clientEntries pagesEntries)) h) /\
  (forall (orig : M oref) (h : heap),
     heap_le (orig h).2 (closing_entry orig h).2).
Proof.
  split; [|split].
  - apply closing_entry_reinvocable.
  - intros c p h Hc Hp.
    pose proof (base_entry_well_behaved c p h Hc Hp) as Hwb.
    split; [exact Hwb|]. apply closing_entry_reinvocable. exact Hwb.
  - intros orig h. rewrite closing_entry_run.
    destruct (orig h) as [[original|e] h1]; cbn [snd].
    + apply closing_run_le.
    + apply heap_le_refl.
Qed.

End StoreWrapped.

Lemma final_entry_thunk_reinvocable_witness :
  Store.outcome (Store.closing_entry (Store.base_entry 1 2))
    (Store.invoke_n (Store.closing_entry (Store.base_entry 1 2)) 3 sample_heap)
  = Store.outcome (Store.closing_entry (Store.base_entry 1 2)) sample_heap /\
  Store.view
    (Store.invoke_n (Store.closing_entry (Store.base_entry 1 2)) 3 sample_heap)
    1%positive
  = Store.view sample_heap 1%positive.
Proof.
  destruct (proj1 (proj2 StoreWrapped.final_entry_thunk_reinvocable)
              1%positive 2%positive sample_heap
              (proj1 sample_heap_allocated) (proj2 sample_heap_allocated))
    as [Hwb _].
  destruct (proj1 StoreWrapped.final_entry_thunk_reinvocable
              (Store.base_entry 1 2) sample_heap Hwb 3)
    as (Hout & _ & Hview & _).
  split; [exact Hout|].
  apply Hview. exact (proj1 sample_heap_allocated).
Defined.

(** C5, as stated, fails for the final entry thunk of a build whose hook
    wraps the entry thunk to unshift a module into [main.js]: the array
    under [main.js] is the one of the client entries, so the second
    invocation returns the module twice and the client entries have
    changed. *)
Lemma unshifting_hook_accumulates :
  let thunk :=
    Store.closing_entry
      (StoreHook.unshifting_entry "./polyfills.js" (Store.base_entry 1 2)) in
  let h1 := (thunk sample_heap).2 in
  Store.outcome thunk sample_heap
  = Ok (<["static/commons/main.js" :=
            ["./polyfills.js"; "/app/node_modules/next/dist/client/next"]]>
        {["bundles/pages/index.js" := ["/app/pages/index.js"]]}) /\
  Store.outcome thunk h1
  = Ok (<["static/commons/main.js" :=
            ["./polyfills.js"; "./polyfills.js";
             "/app/node_modules/next/dist/client/next"]]>
        {["bundles/pages/index.js" := ["/app/pages/index.js"]]}) /\
  Store.outcome thunk h1 <> Store.outcome thunk sample_heap /\
  Store.view sample_heap 1%positive !! "main.js" = Some [] /\
  Store.view h1 1%positive !! "main.js" = Some ["./polyfills.js"].
Proof.
  cbv zeta.
  assert (Store.outcome
            (Store.closing_entry
               (StoreHook.unshifting_entry "./polyfills.js" (Store.base_entry 1 2)))
            sample_heap
          = Ok (<["static/commons/main.js" :=
                    ["./polyfills.js"; "/app/node_modules/next/dist/client/next"]]>
                {["bundles/pages/index.js" := ["/app/pages/index.js"]]})) as H1
    by (vm_compute; reflexivity).
  assert (Store.outcome
            (Store.closing_entry
               (StoreHook.unshifting_entry "./polyfills.js" (Store.base_entry 1 2)))
            (Store.closing_entry
               (StoreHook.unshifting_entry "./polyfills.js" (Store.base_entry 1 2))
               sample_heap).2
          = Ok (<["static/commons/main.js" :=
                    ["./polyfills.js"; "./polyfills.js";
                     "/app/node_modules/next/dist/client/next"]]>
                {["bundles/pages/index.js" := ["/app/pages/index.js"]]})) as H2
    by (vm_compute; reflexivity).
  split; [exact H1|]. split; [exact H2|]. split.
  - rewrite H1, H2. intros H. vm_compute in H. discriminate H.
  - split; vm_compute; reflexivity.
Qed.
